(** * node-vault: request construction, dispatch and response interpretation

    A shallow embedding of the client module ([dist/index.js] is its
    compiled form): [handleVaultResponse], [request], [validate],
    [extendOptions] and [generateFunction], with the helpers they use.

    Conventions of the embedding.
    - JavaScript values are the type [value].  JSON data that the code only
      reads is kept as a tree ([VArr], [VObj]); the objects the code creates
      or writes to (the options object, the headers object, the caller's
      argument object) live in a store and are named by [VRef].  The
      libraries (validator, templater, transport) receive a document as data:
      the properties of the object at the time of the call ([deref]).  The
      constructor's configuration, the command descriptors and the schemas
      are data as well.
    - An object is the list of its own enumerable string-keyed properties in
      the order [Object.keys] enumerates them.  Members inherited from
      [Object.prototype] and the numeric reordering of integer-like keys are
      outside the embedding.
    - Numbers are integers, in the range JavaScript prints in plain decimal.
      Strings are byte strings (UTF-8); operations that JavaScript performs
      on UTF-16 code units (length, indexing) are exact on ASCII text.
    - Logging ([depends.debug]) is left out: it does not alter control flow. *)

From Stdlib Require Import ZArith String Ascii List.
From stdpp Require Import gmap strings list pretty.

Local Open Scope Z_scope.
Set Warnings "-register-all,-clear-no-such-hyp".

(** ** Values *)

Definition loc := positive.

Inductive value :=
| VUndef
| VNull
| VBool (b : bool)
| VNum (n : Z)
| VStr (s : string)
| VArr (xs : list value)
| VObj (ps : list (string * value))
| VRef (l : loc).

Definition props := list (string * value).

(** [typeof v === 'string'] *)
Definition is_string (v : value) : bool :=
  match v with VStr _ => true | _ => false end.

Definition str_empty (s : string) : bool :=
  match s with EmptyString => true | String _ _ => false end.

(** ToBoolean *)
Definition truthy (v : value) : bool :=
  match v with
  | VUndef | VNull => false
  | VBool b => b
  | VNum n => negb (n =? 0)
  | VStr s => negb (str_empty s)
  | VArr _ | VObj _ | VRef _ => true
  end.

(** [a || b] *)
Definition js_or (a b : value) : value := if truthy a then a else b.

(** ToString, as used by template literals, [String(v)] and [+=] on strings.
    Every object in the store is a plain object. *)
Fixpoint js_string (v : value) : string :=
  match v with
  | VUndef => "undefined"
  | VNull => "null"
  | VBool true => "true"
  | VBool false => "false"
  | VNum n => pretty n
  | VStr s => s
  | VArr xs =>
      String.concat ","
        (map (fun x => match x with
                       | VUndef | VNull => EmptyString
                       | _ => js_string x
                       end) xs)
  | VObj _ | VRef _ => "[object Object]"
  end.

(** ** Own properties of an object, in enumeration order *)

Fixpoint get (k : string) (ps : props) : value :=
  match ps with
  | [] => VUndef
  | (k', v) :: r => if decide (k = k') then v else get k r
  end.

Fixpoint has (k : string) (ps : props) : bool :=
  match ps with
  | [] => false
  | (k', _) :: r => if decide (k = k') then true else has k r
  end.

(** [o[k] = v]: an existing key keeps its position, a new key goes last. *)
Fixpoint set (k : string) (v : value) (ps : props) : props :=
  match ps with
  | [] => [(k, v)]
  | (k', v') :: r =>
      if decide (k = k') then (k', v) :: r else (k', v') :: set k v r
  end.

(** [delete o[k]] *)
Fixpoint del (k : string) (ps : props) : props :=
  match ps with
  | [] => []
  | (k', v') :: r => if decide (k = k') then r else (k', v') :: del k r
  end.

Definition keys (ps : props) : list string := map fst ps.

(** One source of [Object.assign(target, source)]. *)
Definition assign (target source : props) : props :=
  fold_left (fun t kv => set (fst kv) (snd kv) t) source target.

(** ** Strings *)

(** [s.includes(pat)], which is what matching a literal regular expression
    amounts to. *)
Fixpoint includes (pat s : string) : bool :=
  if String.prefix pat s then true
  else match s with
       | EmptyString => false
       | String _ r => includes pat r
       end.

(** [s.replace(/pat/g, rep)] for a literal, non-empty [pat]: matches are
    taken left to right and do not overlap.  [skip] counts the characters of
    the current match still to drop. *)
Fixpoint replace_go (pat rep : string) (skip : nat) (s : string) : string :=
  match s with
  | EmptyString => EmptyString
  | String c r =>
      match skip with
      | S k => replace_go pat rep k r
      | O =>
          if String.prefix pat s
          then rep +:+ replace_go pat rep (Nat.pred (String.length pat)) r
          else String c (replace_go pat rep O r)
      end
  end.

Definition replace_all (pat rep s : string) : string := replace_go pat rep O s.

Definition code (c : ascii) : N := N_of_ascii c.

Definition is_alnum (c : ascii) : bool :=
  let n := code c in
  ((48 <=? n) && (n <=? 57) || (65 <=? n) && (n <=? 90)
   || (97 <=? n) && (n <=? 122))%N.

(** The characters [encodeURIComponent] leaves alone:
    letters, digits, and hyphen, underscore, dot, exclamation mark, tilde,
    asterisk, single quote and the two parentheses. *)
Definition uri_unreserved (c : ascii) : bool :=
  is_alnum c ||
  match code c with
  | 45 | 95 | 46 | 33 | 126 | 42 | 39 | 40 | 41 => true
  | _ => false
  end%N.

Definition hex_digit (n : N) : ascii :=
  match n with
  | 0 => "0" | 1 => "1" | 2 => "2" | 3 => "3" | 4 => "4" | 5 => "5"
  | 6 => "6" | 7 => "7" | 8 => "8" | 9 => "9" | 10 => "A" | 11 => "B"
  | 12 => "C" | 13 => "D" | 14 => "E" | _ => "F"
  end%N%char.

Definition percent (c : ascii) : string :=
  String "%" (String (hex_digit (code c / 16)%N)
                (String (hex_digit (code c mod 16)%N) EmptyString)).

Fixpoint encode_bytes (s : string) : string :=
  match s with
  | EmptyString => EmptyString
  | String c r =>
      if uri_unreserved c then String c (encode_bytes r)
      else percent c +:+ encode_bytes r
  end.

(** [encodeURIComponent(v)] *)
Definition encodeURIComponent (v : value) : string := encode_bytes (js_string v).

(** ** Reading values as objects *)

Fixpoint indexed {A} (f : A -> value) (i : nat) (xs : list A) : props :=
  match xs with
  | [] => []
  | x :: r => (pretty (Z.of_nat i), f x) :: indexed f (S i) r
  end.

Definition char_value (c : ascii) : value := VStr (String c EmptyString).

(** Own enumerable properties of a piece of data ([Object.keys] argument,
    [Object.assign] source): arrays and strings expose their indices, other
    primitives nothing. *)
Definition data_props (v : value) : props :=
  match v with
  | VObj ps => ps
  | VArr xs => indexed id O xs
  | VStr s => indexed char_value O (list_ascii_of_string s)
  | VUndef | VNull | VBool _ | VNum _ | VRef _ => []
  end.

(** [v[k]] on data other than [undefined] and [null]. *)
Definition data_get (v : value) (k : string) : value :=
  match v with
  | VArr xs =>
      if decide (k = "length") then VNum (Z.of_nat (length xs))
      else get k (data_props v)
  | VStr s =>
      if decide (k = "length") then VNum (Z.of_nat (String.length s))
      else get k (data_props v)
  | _ => get k (data_props v)
  end.

(** [k in v] on data; the operator raises a TypeError on a primitive. *)
Definition data_in (k : string) (v : value) : option bool :=
  match v with
  | VObj ps => Some (has k ps)
  | VArr _ => Some (if decide (k = "length") then true else has k (data_props v))
  | VRef _ => Some false
  | VUndef | VNull | VBool _ | VNum _ | VStr _ => None
  end.

(** ** The store *)

Abbreviation heap := (gmap loc props).

(** Own properties of the object at [l]. *)
Definition obj_at (h : heap) (l : loc) : props :=
  match h !! l with
  | Some ps => ps
  | None => []
  end.

(** A location not yet in use. *)
Definition fresh_loc (h : heap) : loc := fresh (dom h).

(** The data a reference stands for. *)
Definition deref (h : heap) (v : value) : value :=
  match v with
  | VRef l => VObj (obj_at h l)
  | _ => v
  end.

Definition own_props (h : heap) (v : value) : props := data_props (deref h v).

(** The field values of the object at [l], as a library sees them. *)
Definition snapshot (h : heap) (l : loc) : props :=
  map (fun kv => (fst kv, deref h (snd kv))) (obj_at h l).

(** ** Failures and outcomes *)

(** [tv4.error]: the validator's structured error. *)
Record tv4_error := {
  err_code : Z;
  err_message : string;
  err_dataPath : string;
  err_schemaPath : string
}.

Inductive error :=
| JsError (message : string)       (* new Error(message) *)
| SchemaError (e : tv4_error)      (* depends.tv4.error *)
| TypeError                        (* raised by the runtime *)
| TemplateError                    (* raised by mustache: unclosed tag *)
| TransportError (reason : string) (* rejection coming from the transport *).

(** What a call yields: a promise that resolves or rejects, an exception
    raised before any promise exists, or [Beyond] where the call leaves the
    embedding. *)
Inductive outcome (A : Type) :=
| Resolved (a : A)
| Rejected (e : error)
| Thrown (e : error)
| Beyond.
Arguments Resolved {A} a.
Arguments Rejected {A} e.
Arguments Thrown {A} e.
Arguments Beyond {A}.

(** [new Error(v)]: the message is [String(v)] unless [v] is [undefined]. *)
Definition new_Error (v : value) : error :=
  JsError (match v with VUndef => EmptyString | _ => js_string v end).

(** ** The templater (mustache)

    Modelled from the spec: the templater is the external [mustache]
    package, which is not under [src/]; this is its behaviour on templates
    made of text and variable tags.  A tag [{{name}}] is replaced by the
    HTML-escaped string of the view's property [name], [{{&name}}] by the
    unescaped one, and a name the view lacks by nothing.  Sections,
    partials, comments, delimiter changes, the triple mustache and dotted
    names are [Unsupported]. *)

Inductive rendering := Rendered (s : string) | Unclosed | Unsupported.

(** The entity map of [mustache.escape]: ampersand, less-than, greater-than,
    double quote, single quote, slash, backtick and equals sign. *)
Definition escape_char (c : ascii) : string :=
  match code c with
  | 38 => "&amp;"
  | 60 => "&lt;"
  | 62 => "&gt;"
  | 34 => "&quot;"
  | 39 => "&#39;"
  | 47 => "&#x2F;"
  | 96 => "&#x60;"
  | 61 => "&#x3D;"
  | _ => String c EmptyString
  end%N.

Fixpoint escapeHtml (s : string) : string :=
  match s with
  | EmptyString => EmptyString
  | String c r => escape_char c +:+ escapeHtml r
  end.

(** [\s] on ASCII: tab, line feed, vertical tab, form feed, carriage return,
    space. *)
Definition is_white (c : ascii) : bool :=
  match code c with
  | 9 | 10 | 11 | 12 | 13 | 32 => true
  | _ => false
  end%N.

Fixpoint trim_left (s : string) : string :=
  match s with
  | String c r => if is_white c then trim_left r else s
  | EmptyString => EmptyString
  end.

Definition trim (s : string) : string :=
  String.rev (trim_left (String.rev (trim_left s))).

(** Characters that, first after the opening braces and any white space,
    select a tag kind: [# ^ / > { & = !]. *)
Definition tag_sigil (c : ascii) : bool :=
  match code c with
  | 35 | 94 | 47 | 62 | 123 | 38 | 61 | 33 => true
  | _ => false
  end%N.

(** [context.lookup(name)] for a name without dots: only objects are
    searched. *)
Definition mustache_lookup (view : value) (name : string) : value :=
  match data_in name view with
  | Some true => data_get view name
  | _ => VUndef
  end.

Definition render_tag (view : value) (unescaped : bool) (raw : string)
  : rendering :=
  let name := trim raw in
  if includes "." name then Unsupported
  else match mustache_lookup view name with
       | VUndef | VNull => Rendered EmptyString
       | v => Rendered (if unescaped then js_string v
                        else escapeHtml (js_string v))
       end.

Definition prepend (s : string) (r : rendering) : rendering :=
  match r with
  | Rendered t => Rendered (s +:+ t)
  | _ => r
  end.

(** The scanner is in plain text, just past the opening braces (where
    white space is skipped and the tag kind is decided), or inside a tag. *)
Inductive scan := InText | Opened | InTag (unescaped : bool) (raw : string).

Fixpoint render_go (view : value) (st : scan) (s : string) : rendering :=
  match s with
  | EmptyString =>
      match st with InText => Rendered EmptyString | _ => Unclosed end
  | String c r =>
      let in_tag u raw :=
        match c, r with
        | "}"%char, String "}" r' =>
            match render_tag view u raw with
            | Rendered out => prepend out (render_go view InText r')
            | bad => bad
            end
        | _, _ => render_go view (InTag u (raw +:+ String c EmptyString)) r
        end in
      match st with
      | InText =>
          match c, r with
          | "{"%char, String "{" r' => render_go view Opened r'
          | _, _ => prepend (String c EmptyString) (render_go view InText r)
          end
      | Opened =>
          if is_white c then render_go view Opened r
          else if tag_sigil c
               then if decide (c = "&"%char)
                    then render_go view (InTag true EmptyString) r
                    else Unsupported
               else in_tag false EmptyString
      | InTag u raw => in_tag u raw
      end
  end.

(** [mustache.render(template, view)] *)
Definition mustache_render (template : string) (view : value) : rendering :=
  render_go view InText template.

(** ** The schema validator (tv4)

    A schema is a JSON object.  The client takes the validator as a
    dependency ([depends.tv4]): a function from a document and a schema to
    [None] (valid) or the structured error it leaves in [tv4.error]. *)

Definition Schema := props.
Definition validator := value -> Schema -> option tv4_error.

(** Modelled from the spec: the default validator is the external [tv4]
    package, which is not under [src/]; this is its behaviour for the
    keywords [type], [required] and [properties], the ones the request
    schema uses.  Other keywords are ignored. *)

Definition type_name (v : value) : string :=
  match v with
  | VUndef => "undefined"
  | VNull => "null"
  | VBool _ => "boolean"
  | VNum _ => "number"
  | VStr _ => "string"
  | VArr _ => "array"
  | VObj _ | VRef _ => "object"
  end.

Definition type_ok (data : value) (t : value) : bool :=
  match t with
  | VStr t =>
      bool_decide (t = type_name data)
      || bool_decide (t = "integer") && bool_decide (type_name data = "number")
  | _ => false
  end.

Definition validateType (data : value) (type : value) : option tv4_error :=
  match type with
  | VUndef => None
  | _ =>
      let allowed := match type with VArr ts => ts | t => [t] end in
      if existsb (type_ok data) allowed then None
      else Some {| err_code := 0;
                   err_message := "Invalid type: " +:+ type_name data +:+
                     " (expected " +:+
                     String.concat "/" (map js_string allowed) +:+ ")";
                   err_dataPath := EmptyString;
                   err_schemaPath := "/type" |}
  end.

Fixpoint validateRequired (data : props) (i : nat) (required : list value)
  : option tv4_error :=
  match required with
  | [] => None
  | key :: r =>
      match get (js_string key) data with
      | VUndef =>
          Some {| err_code := 302;
                  err_message := "Missing required property: " +:+ js_string key;
                  err_dataPath := EmptyString;
                  err_schemaPath := "/required/" +:+ pretty (Z.of_nat i) |}
      | _ => validateRequired data (S i) r
      end
  end.

(** JSON-pointer escaping of a key. *)
Definition pointer_escape (k : string) : string :=
  replace_all "/" "~1" (replace_all "~" "~0" k).

Definition prefixWith (k : string) (e : tv4_error) : tv4_error :=
  {| err_code := err_code e;
     err_message := err_message e;
     err_dataPath := "/" +:+ pointer_escape k +:+ err_dataPath e;
     err_schemaPath := "/properties/" +:+ pointer_escape k +:+ err_schemaPath e |}.

(** The properties of the document are visited in the document's order. *)
Fixpoint validateProperties
    (subs : list (string * (value -> option tv4_error))) (data : props)
  : option tv4_error :=
  match data with
  | [] => None
  | (k, v) :: r =>
      match List.find (fun s => bool_decide (fst s = k)) subs with
      | Some (_, check) =>
          match check v with
          | Some e => Some (prefixWith k e)
          | None => validateProperties subs r
          end
      | None => validateProperties subs r
      end
  end.

Fixpoint validateAll (schema : value) (data : value) {struct schema}
  : option tv4_error :=
  match schema with
  | VObj sps =>
      let subs :=
        (fix find (ps : list (string * value)) :=
           match ps with
           | [] => []
           | (k, v) :: r =>
               if decide (k = "properties")
               then match v with
                    | VObj pps =>
                        (fix each (qs : list (string * value)) :=
                           match qs with
                           | [] => []
                           | (pk, pv) :: qr => (pk, validateAll pv) :: each qr
                           end) pps
                    | _ => []
                    end
               else find r
           end) sps in
      match validateType data (get "type" sps) with
      | Some e => Some e
      | None =>
          match data with
          | VObj dps =>
              match validateRequired dps O
                      (match get "required" sps with VArr ks => ks | _ => [] end)
              with
              | Some e => Some e
              | None => validateProperties subs dps
              end
          | _ => None
          end
      end
  | _ => None
  end.

(** [tv4.validate(data, schema)], with [tv4.error] as the result. *)
Definition tv4_validate : validator :=
  fun data schema => validateAll (VObj schema) data.

Definition requestSchema : Schema :=
  [ ("type", VStr "object");
    ("properties",
      VObj [ ("path", VObj [("type", VStr "string")]);
             ("method", VObj [("type", VStr "string")]) ]);
    ("required", VArr [VStr "path"; VStr "method"]) ].

(** ** Configuration and client *)

(** The constructor's [config] object, as far as the pipeline reads it. *)
Record VaultConfig := {
  cfg_apiVersion : value;
  cfg_endpoint : value;
  cfg_token : value;
  cfg_requestOptions : value
}.

(** [process.env]: an entry is a string or [undefined]. *)
Record Env := { VAULT_ADDR : value; VAULT_TOKEN : value }.

Record Client := { apiVersion : value; endpoint : value; token : value }.

Definition mkClient (config : VaultConfig) (env : Env) : Client :=
  {| apiVersion := js_or (cfg_apiVersion config) (VStr "v1");
     endpoint := js_or (js_or (cfg_endpoint config) (VAULT_ADDR env))
                   (VStr "http://127.0.0.1:8200");
     token := js_or (cfg_token config) (VAULT_TOKEN env) |}.

(** A command descriptor: an entry of the command table. *)
Record SchemaDecl := { req : option Schema; query : option Schema }.

Record Descriptor := {
  conf_method : value;
  conf_path : value;
  conf_schema : option SchemaDecl;
  conf_requestOptions : value
}.

(** The response envelope the transport resolves with. *)
Record Response := { statusCode : Z; body : value; request_path : string }.

(** ** The response interpreter *)

Definition is_digit (c : ascii) : bool := ((48 <=? code c) && (code c <=? 57))%N.

Fixpoint all_digits (s : string) : bool :=
  match s with
  | EmptyString => true
  | String c r => is_digit c && all_digits r
  end.

Fixpoint any_nonzero (s : string) : bool :=
  match s with
  | EmptyString => false
  | String c r => negb (bool_decide (c = "0"%char)) || any_nonzero r
  end.

Definition digits (s : string) : bool := negb (str_empty s) && all_digits s.

(** [Number(s) > 0] for the empty string and for signed decimal integer
    literals; other strings are left out. *)
Definition numeric_gt0 (s : string) : option bool :=
  match s with
  | EmptyString => Some false
  | String c r =>
      if bool_decide (c = "-"%char)
      then if digits r then Some false else None
      else if bool_decide (c = "+"%char)
           then if digits r then Some (any_nonzero r) else None
           else if digits s then Some (any_nonzero s) else None
  end.

(** [v > 0] *)
Definition js_gt0 (v : value) : option bool :=
  match v with
  | VNum n => Some (0 <? n)
  | VBool b => Some b
  | VUndef | VNull => Some false
  | VStr s => numeric_gt0 s
  | VArr _ => numeric_gt0 (js_string v)
  | VObj _ | VRef _ => Some false
  end.

Definition hasErrors (body : value) : option bool :=
  if truthy body
  then let errors := data_get body "errors" in
       if truthy errors then js_gt0 (data_get errors "length") else Some false
  else Some false.

Definition handleVaultResponse (response : option Response) : outcome value :=
  match response with
  | None => Rejected (new_Error (VStr "No response passed"))
  | Some r =>
      if existsb (Z.eqb (statusCode r)) [200; 204] then Resolved (body r)
      else if includes "sys/health" (request_path r) then Resolved (body r)
      else match hasErrors (body r) with
           | Some true =>
               Rejected (new_Error (data_get (data_get (body r) "errors") "0"))
           | Some false =>
               Rejected (new_Error (VStr ("Status " +:+ pretty (statusCode r))))
           | None => Beyond
           end
  end.

(** ** The pipeline as a computation over the store

    A [world] is the store together with the requests handed to the
    transport so far, each with the field values it had when it was sent. *)

Record world := { store : heap; wire : list (loc * props) }.

Definition M (A : Type) : Type := world -> A * world.

#[global] Instance M_ret : MRet M := fun A a w => (a, w).
#[global] Instance M_bind : MBind M :=
  fun A B f m w => let (a, w') := m w in f a w'.

Definition the_heap : M heap := fun w => (store w, w).

(** A new object, as an object literal or [Object.assign({}, ...)] makes. *)
Definition alloc (ps : props) : M loc :=
  fun w => let l := fresh_loc (store w) in
           (l, {| store := <[l := ps]> (store w); wire := wire w |}).

Definition read (l : loc) : M props := fun w => (obj_at (store w) l, w).

Definition update (l : loc) (f : props -> props) : M unit :=
  fun w => (tt, {| store := <[l := f (obj_at (store w) l)]> (store w);
                   wire := wire w |}).

(** [target[k] = v].  Only objects of the store are ever assigned to. *)
Definition set_prop (target : value) (k : string) (v : value) : M unit :=
  match target with
  | VRef l => update l (set k v)
  | _ => mret tt
  end.

(** An exception raised in a [then] callback rejects the promise. *)
Definition caught {A} (r : outcome A) : outcome A :=
  match r with Thrown e => Rejected e | _ => r end.

(** [p.then(f)] *)
Definition and_then {A B} (p : M (outcome A)) (f : A -> M (outcome B))
  : M (outcome B) :=
  r ← p;
  match r with
  | Resolved a => r' ← f a; mret (caught r')
  | Rejected e => mret (Rejected e)
  | Thrown e => mret (Thrown e)
  | Beyond => mret Beyond
  end.

(** [Object.assign(obj, vals, obj)] *)
Definition defaults (obj vals : props) : props :=
  let obj := assign obj vals in assign obj obj.

(** [Object.assign({}, obj, vals)] *)
Definition merge (obj vals : props) : props := assign (assign [] obj) vals.

Section Client.

Variable config : VaultConfig.
Variable env : Env.
(** [depends.tv4.validate] *)
Variable tv4 : validator.
(** [rp]: the transport, a function of the request's field values. *)
Variable rp : props -> outcome (option Response).

Definition client : Client := mkClient config env.

(** [rp(options)] *)
Definition send (options : loc) : M (outcome (option Response)) :=
  fun w => let spec := snapshot (store w) options in
           (rp spec, {| store := store w;
                        wire := wire w ++ [(options, spec)] |}).

(** [options.inherit === false] *)
Definition no_inherit (o : props) : bool :=
  match get "inherit" o with VBool false => true | _ => false end.

(** Lines 83-84 of [request]: the object the rest of the call works on. *)
Definition inherit_options (options : loc) : M loc :=
  o ← read options;
  options ← (if no_inherit o then mret options
             else alloc (merge (data_props (cfg_requestOptions config)) o));
  _ ← update options (del "inherit");
  mret options.

(** The object lines 83-84 leave: the caller's own when [inherit] is
    [false], a merge over the client-wide defaults otherwise, and in both
    cases without the [inherit] key. *)
Definition merged_options (o : props) : props :=
  del "inherit"
    (if no_inherit o then o
     else merge (data_props (cfg_requestOptions config)) o).

(** [.then(client.handleVaultResponse)] *)
Definition then_handle (r : outcome (option Response)) : outcome value :=
  match r with
  | Resolved response => handleVaultResponse response
  | Rejected e => Rejected e
  | Thrown e => Thrown e
  | Beyond => Beyond
  end.

Definition uriTpl (o : props) : string :=
  js_string (endpoint client) +:+ "/" +:+ js_string (apiVersion client)
  +:+ js_string (get "path" o).

(** [typeof client.token === 'string' && client.token] *)
Definition has_token : bool := is_string (token client) && truthy (token client).

(** What the headers object holds when the request is sent. *)
Definition token_headers : props :=
  if has_token then [("X-Vault-Token", token client)] else [].

Definition request (options : loc) : M (outcome value) :=
  options ← inherit_options options;
  h ← the_heap;
  match tv4 (deref h (VRef options)) requestSchema with
  | Some e => mret (Rejected (SchemaError e))
  | None =>
      o ← read options;
      match mustache_render (uriTpl o) (deref h (get "json" o)) with
      | Unclosed => mret (Thrown TemplateError)
      | Unsupported => mret Beyond
      | Rendered s =>
          headers ← alloc [];
          _ ← update options (fun o =>
                defaults o [ ("uri", VStr (replace_all "&#x2F;" "/" s));
                             ("headers", VRef headers) ]);
          o ← read options;
          _ ← (if has_token && truthy (get "headers" o)
               then set_prop (get "headers" o) "X-Vault-Token" (token client)
               else mret tt);
          r ← send options;
          mret (then_handle r)
      end
  end.

Definition validate (json : value) (schema : option Schema) : M (outcome unit) :=
  h ← the_heap;
  mret (match schema with
        | None => Resolved tt
        | Some s => match tv4 (deref h json) s with
                    | None => Resolved tt
                    | Some e => Rejected (SchemaError e)
                    end
        end).

(** The loop of [extendOptions]; [None] when [in] raises. *)
Fixpoint collect (json : value) (ks : list string) (params : list string)
  : option (list string) :=
  match ks with
  | [] => Some params
  | key :: r =>
      match data_in key json with
      | None => None
      | Some true =>
          collect json r
            (params ++ [key +:+ "=" +:+ encodeURIComponent (data_get json key)])
      | Some false => collect json r params
      end
  end.

(** [params.length ? `?${params.join('&')}` : ''] *)
Definition query_string (params : list string) : string :=
  match params with
  | [] => EmptyString
  | _ => "?" +:+ String.concat "&" params
  end.

Definition extendOptions (conf : Descriptor) (options : loc) : M (outcome loc) :=
  match conf_schema conf with
  | None => mret (Thrown TypeError)
  | Some decl =>
      match query decl with
      | None => mret (Resolved options)
      | Some schema =>
          h ← the_heap;
          o ← read options;
          match get "properties" schema with
          | VUndef | VNull => mret (Thrown TypeError)
          | properties =>
              match collect (deref h (get "json" o))
                      (keys (data_props properties)) [] with
              | None => mret (Thrown TypeError)
              | Some params =>
                  _ ← update options (fun o =>
                        set "path"
                          (VStr (js_string (get "path" o) +:+ query_string params)) o);
                  mret (Resolved options)
              end
          end
      end
  end.

(** Line 174: the options object of a generated operation. *)
Definition operation_options (conf : Descriptor) (h : heap) (args : loc) : props :=
  assign
    (merge (data_props (conf_requestOptions conf))
       (own_props h (get "requestOptions" (obj_at h args))))
    [ ("method", conf_method conf); ("path", conf_path conf);
      ("json", VRef args) ].

Definition json_of (options : loc) : M value :=
  o ← read options; mret (get "json" o).

(** [client[name]], for the descriptor [generateFunction] selected. *)
Definition operation (conf : Descriptor) (args : loc) : M (outcome value) :=
  h ← the_heap;
  options ← alloc (operation_options conf h args);
  match conf_schema conf with
  | None => request options
  | Some decl =>
      and_then
        (and_then
           (and_then (json ← json_of options; validate json (req decl))
              (fun _ => json ← json_of options; validate json (query decl)))
           (fun _ => extendOptions conf options))
        request
  end.

(** [help], [write], [read], [list] and [delete]: [request] on
    [merge(options, {...})].  The [trace] wrapper around them only logs. *)
Definition slash (path : value) : string := "/" +:+ js_string path.

Definition client_help (path options : value) : M (outcome value) :=
  h ← the_heap;
  l ← alloc (merge (own_props h options)
               [ ("path", VStr (slash path +:+ "?help=1"));
                 ("method", VStr "GET") ]);
  request l.

Definition client_write (path data options : value) : M (outcome value) :=
  h ← the_heap;
  l ← alloc (merge (own_props h options)
               [ ("path", VStr (slash path)); ("json", data);
                 ("method", VStr "PUT") ]);
  request l.

Definition client_read (path options : value) : M (outcome value) :=
  h ← the_heap;
  l ← alloc (merge (own_props h options)
               [ ("path", VStr (slash path)); ("method", VStr "GET") ]);
  request l.

Definition client_list (path options : value) : M (outcome value) :=
  h ← the_heap;
  l ← alloc (merge (own_props h options)
               [ ("path", VStr (slash path)); ("method", VStr "LIST") ]);
  request l.

Definition client_delete (path options : value) : M (outcome value) :=
  h ← the_heap;
  l ← alloc (merge (own_props h options)
               [ ("path", VStr (slash path)); ("method", VStr "DELETE") ]);
  request l.

(** [(conf && conf.method && conf.path && conf) || confs[name]] *)
Definition select_config (confs : list (string * Descriptor)) (name : string)
    (conf : option Descriptor) : option Descriptor :=
  let listed := snd <$> List.find (fun e => bool_decide (fst e = name)) confs in
  match conf with
  | Some c =>
      if truthy (conf_method c) && truthy (conf_path c) then Some c else listed
  | None => listed
  end.

(** [client.generateFunction(confs)(name, conf)]: the operation bound to
    [client[name]].  Without a descriptor the operation raises when called. *)
Definition generateFunction (confs : list (string * Descriptor)) (name : string)
    (conf : option Descriptor) (args : loc) : M (outcome value) :=
  match select_config confs name conf with
  | Some config => operation config args
  | None => mret (Thrown TypeError)
  end.

End Client.

(** ** Vocabulary of the statements *)

Definition success_status (code : Z) : Prop := code = 200 ∨ code = 204.

(** The object [request] works on: the caller's own or a new one. *)
Definition target_loc (h : heap) (l : loc) : loc :=
  if no_inherit (obj_at h l) then l else fresh_loc h.

(** The object the request is sent from. *)
Definition final_options (o' : props) (uri : string) (headers : loc) : props :=
  assign o' [("uri", VStr uri); ("headers", VRef headers)].

(** [validate(json, schema)] as a function of the document. *)
Definition check (tv4 : validator) (doc : value) (schema : option Schema)
  : option tv4_error :=
  match schema with
  | None => None
  | Some s => tv4 doc s
  end.

(** The query parameters [extendOptions] collects; [None] where it raises. *)
Definition query_params (schema : Schema) (doc : value) : option (list string) :=
  match get "properties" schema with
  | VUndef | VNull => None
  | properties => collect doc (keys (data_props properties)) []
  end.

(** The options object [extendOptions] leaves; [None] where it raises. *)
Definition extended (conf : Descriptor) (doc : value) (o : props) : option props :=
  match conf_schema conf with
  | None => None
  | Some decl =>
      match query decl with
      | None => Some o
      | Some schema =>
          match query_params schema doc with
          | None => None
          | Some params =>
              Some (set "path"
                      (VStr (js_string (get "path" o) +:+ query_string params)) o)
          end
      end
  end.

(** The options object a generated operation hands to [request], if the
    call gets that far. *)
Definition prepared (tv4 : validator) (conf : Descriptor) (h : heap) (args : loc)
  : option props :=
  let o1 := operation_options conf h args in
  let doc := VObj (obj_at h args) in
  match conf_schema conf with
  | None => Some o1
  | Some decl =>
      match check tv4 doc (req decl), check tv4 doc (query decl) with
      | None, None => extended conf doc o1
      | _, _ => None
      end
  end.

(** The query parameters in the words of the specification: one pair
    [name=urlEncode(value)] for each declared property name that is also a
    key of the body, in the order of declaration. *)
Definition query_pair (body : props) (k : string) : string :=
  k +:+ "=" +:+ encodeURIComponent (get k body).

Definition query_pairs (declared : list string) (body : props) : list string :=
  query_pair body <$> filter (λ k, k ∈ keys body) declared.

(** A reference is allocated when the store holds its object. *)
Definition allocated (h : heap) (v : value) : Prop :=
  match v with
  | VRef l => is_Some (h !! l)
  | _ => True
  end.

(** Two requests, sent from [e1] in store [h1] and from [e2] in store [h2],
    are independent objects with the same field values: the objects and
    their headers objects are distinct, the headers hold the same, and every
    other field is the same value. *)
Definition same_request (h1 h2 : heap) (e1 e2 : loc * props) : Prop :=
  fst e1 ≠ fst e2 ∧
  del "headers" (obj_at h2 (fst e2)) = del "headers" (obj_at h1 (fst e1)) ∧
  ∃ hd1 hd2,
    hd1 ≠ hd2 ∧
    get "headers" (obj_at h1 (fst e1)) = VRef hd1 ∧
    get "headers" (obj_at h2 (fst e2)) = VRef hd2 ∧
    obj_at h2 hd2 = obj_at h1 hd1.


(** The schema of a string. *)
Definition string_schema : value := VObj [("type", VStr "string")].

(** The methods of the enumeration GET, POST, PUT, DELETE, LIST. *)
Definition allowed_method (v : value) : bool :=
  match v with
  | VStr m => bool_decide (m ∈ ["GET"; "POST"; "PUT"; "DELETE"; "LIST"])
  | _ => false
  end.

(** The requests handed to the transport between two worlds. *)
Definition sent (w w' : world) : list (loc * props) :=
  drop (length (wire w)) (wire w').

(** Every character of [s] satisfies [p]. *)
Fixpoint all_chars (p : ascii → bool) (s : string) : bool :=
  match s with
  | EmptyString => true
  | String c r => p c && all_chars p r
  end.

(** The characters a percent-encoded text is made of. *)
Definition uri_safe (c : ascii) : bool :=
  uri_unreserved c || bool_decide (c = "%"%char).

(** The escaping of [mustache.escape] with the slash left as it is: what
    remains of it once [&#x2F;] has been turned back into a slash. *)
Definition escape_but_slash (c : ascii) : string :=
  if bool_decide (c = "/"%char) then "/" else escape_char c.

Fixpoint escaped_but_slash (s : string) : string :=
  match s with
  | EmptyString => EmptyString
  | String c r => escape_but_slash c +:+ escaped_but_slash r
  end.

(** The characters [mustache.escape] alters, the slash apart. *)
Definition html_special (c : ascii) : bool :=
  negb (bool_decide (c = "/"%char))
  && negb (bool_decide (escape_char c = String c EmptyString)).

(** What a helper of the client ([help], [read], ...) does in world [w]:
    every request it sends has the given method and path, no object of [w]
    is written to, and at most one request is sent. *)
Definition helper_sends (call : M (outcome value)) (w : world)
    (method path : string) : Prop :=
  let w' := snd (call w) in
  (∀ e, e ∈ sent w w' →
        get "method" (snd e) = VStr method ∧ get "path" (snd e) = VStr path) ∧
  (∀ l0, is_Some (store w !! l0) → store w' !! l0 = store w !! l0) ∧
  (length (sent w w') ≤ 1)%nat.



(** ** Sample inputs *)

Definition response_500_bad : Response :=
  {| statusCode := 500;
     body := VObj [("errors", VArr [VStr "bad"])];
     request_path := "/v1/secret/foo" |}.

Definition response_200_errors : Response :=
  {| statusCode := 200;
     body := VObj [("errors", VArr [VStr "x"])];
     request_path := "/v1/secret/foo" |}.

Definition response_500_health : Response :=
  {| statusCode := 500; body := VObj []; request_path := "/v1/sys/health" |}.

Definition response_500_empty : Response :=
  {| statusCode := 500; body := VObj []; request_path := "/v1/secret/foo" |}.

Definition sample_config : VaultConfig :=
  {| cfg_apiVersion := VUndef;
     cfg_endpoint := VUndef;
     cfg_token := VStr "abc";
     cfg_requestOptions := VObj [("timeout", VNum 1000)] |}.

Definition tokenless_config : VaultConfig :=
  {| cfg_apiVersion := VUndef;
     cfg_endpoint := VUndef;
     cfg_token := VUndef;
     cfg_requestOptions := VUndef |}.

Definition no_env : Env := {| VAULT_ADDR := VUndef; VAULT_TOKEN := VUndef |}.

(** A transport that answers 200 and echoes the URI as the request path. *)
Definition sample_rp (spec : props) : outcome (option Response) :=
  Resolved (Some {| statusCode := 200;
                    body := VObj [("data", VObj [])];
                    request_path := js_string (get "uri" spec) |}).

(** A descriptor without a schema. *)
Definition read_secret : Descriptor :=
  {| conf_method := VStr "GET";
     conf_path := VStr "/secret/{{name}}";
     conf_schema := None;
     conf_requestOptions := VUndef |}.


Definition name_schema : Schema :=
  [ ("type", VStr "object");
    ("properties", VObj [("name", string_schema)]);
    ("required", VArr [VStr "name"]) ].

Definition ab_schema : Schema :=
  [ ("type", VStr "object");
    ("properties", VObj [("a", VObj []); ("b", VObj [])]) ].

Definition ab_decl : SchemaDecl := {| req := None; query := Some ab_schema |}.
Definition name_decl : SchemaDecl := {| req := Some name_schema; query := None |}.

(** A descriptor with a query schema declaring [a] and [b]. *)
Definition list_items : Descriptor :=
  {| conf_method := VStr "GET";
     conf_path := VStr "/items";
     conf_schema := Some ab_decl;
     conf_requestOptions := VUndef |}.

(** A descriptor with a request-body schema that requires a string [name]. *)
Definition write_named : Descriptor :=
  {| conf_method := VStr "PUT";
     conf_path := VStr "/secret/{{name}}";
     conf_schema := Some name_decl;
     conf_requestOptions := VUndef |}.

Definition abc_body : props := [("a", VNum 1); ("b", VNum 2); ("c", VNum 3)].

(** The caller's argument object is object 1. *)
Definition secret_world : world :=
  {| store := {[ 1%positive := [("name", VStr "foo/bar")] ]}; wire := [] |}.

Definition abc_world : world :=
  {| store := {[ 1%positive := abc_body ]}; wire := [] |}.

(** Object 2 is the options object of [list_items] called on object 1. *)
Definition abc_options_world : world :=
  {| store := <[ 2%positive := [ ("method", VStr "GET"); ("path", VStr "/items");
                                  ("json", VRef 1%positive) ] ]>
                {[ 1%positive := abc_body ]};
     wire := [] |}.

(** Object 2 is the options object of [read_secret] called on object 1. *)
Definition secret_options_world : world :=
  {| store := <[ 2%positive := [ ("method", VStr "GET");
                                  ("path", VStr "/secret/{{name}}");
                                  ("json", VRef 1%positive) ] ]>
                {[ 1%positive := [("name", VStr "foo/bar")] ]};
     wire := [] |}.

(** The requests the transport receives in these worlds, with the fields
    in the order the merge leaves them. *)
Definition secret_request : loc * props :=
  (3%positive,
   [ ("timeout", VNum 1000); ("method", VStr "GET");
     ("path", VStr "/secret/{{name}}");
     ("json", VObj [("name", VStr "foo/bar")]);
     ("uri", VStr "http://127.0.0.1:8200/v1/secret/foo/bar");
     ("headers", VObj [("X-Vault-Token", VStr "abc")]) ]).



(** The worlds after one and after two calls of [read_secret] on object 1. *)
Definition first_call : world :=
  snd (operation sample_config no_env tv4_validate sample_rp read_secret
         1%positive secret_world).

Definition second_call : world :=
  snd (operation sample_config no_env tv4_validate sample_rp read_secret
         1%positive first_call).

(** Options handed to [request] directly. *)
Definition patch_world : world :=
  {| store := {[ 1%positive := [ ("path", VStr "/sys/seal");
                                  ("method", VStr "PATCH") ] ]};
     wire := [] |}.

Definition numeric_method_world : world :=
  {| store := {[ 1%positive := [ ("path", VStr "/sys/seal");
                                  ("method", VNum 7) ] ]};
     wire := [] |}.

Definition custom_headers_world : world :=
  {| store := {[ 1%positive := [ ("path", VStr "/sys/seal");
                                  ("method", VStr "PUT");
                                  ("headers", VObj [("X-Custom", VStr "1")]) ] ]};
     wire := [] |}.

Definition own_options_world : world :=
  {| store := {[ 1%positive := [ ("path", VStr "/sys/seal");
                                  ("method", VStr "PUT");
                                  ("inherit", VBool false) ] ]};
     wire := [] |}.

(** The worlds [request] leaves on these options. *)
Definition patch_sent : world :=
  snd (request sample_config no_env tv4_validate sample_rp 1%positive patch_world).

Definition own_options_sent : world :=
  snd (request sample_config no_env tv4_validate sample_rp 1%positive
         own_options_world).

(** Bodies whose [errors] is not an array. *)
Definition response_403_text : Response :=
  {| statusCode := 403;
     body := VObj [("errors", VStr "permission denied")];
     request_path := "/v1/secret/foo" |}.

Definition response_500_count : Response :=
  {| statusCode := 500;
     body := VObj [("errors", VNum 3)];
     request_path := "/v1/secret/foo" |}.

(** A configured token that is not a string, and an environment with a
    token. *)
Definition numeric_token_config : VaultConfig :=
  {| cfg_apiVersion := VUndef;
     cfg_endpoint := VUndef;
     cfg_token := VNum 123;
     cfg_requestOptions := VUndef |}.

Definition token_env : Env :=
  {| VAULT_ADDR := VUndef; VAULT_TOKEN := VStr "s3cr3t" |}.



(** A query schema that requires [name], and one without [properties]. *)
Definition bare_schema : Schema := [("type", VStr "object")].

Definition list_named : Descriptor :=
  {| conf_method := VStr "GET";
     conf_path := VStr "/items";
     conf_schema := Some {| req := None; query := Some name_schema |};
     conf_requestOptions := VUndef |}.

Definition list_bare : Descriptor :=
  {| conf_method := VStr "GET";
     conf_path := VStr "/items";
     conf_schema := Some {| req := None; query := Some bare_schema |};
     conf_requestOptions := VUndef |}.

(** Options for a helper that name a method of their own. *)
Definition post_options : value :=
  VObj [("method", VStr "POST"); ("inherit", VBool false)].

(** The requests the transport receives from [request] on the options of
    [patch_world] and of [own_options_world], from [write] of object 1
    under [secret/foo], and from [list_items] on [abc_world]. *)
Definition patch_request : loc * props :=
  (2%positive,
   [ ("timeout", VNum 1000); ("path", VStr "/sys/seal");
     ("method", VStr "PATCH");
     ("uri", VStr "http://127.0.0.1:8200/v1/sys/seal");
     ("headers", VObj [("X-Vault-Token", VStr "abc")]) ]).

Definition own_request : loc * props :=
  (1%positive,
   [ ("path", VStr "/sys/seal"); ("method", VStr "PUT");
     ("uri", VStr "http://127.0.0.1:8200/v1/sys/seal");
     ("headers", VObj [("X-Vault-Token", VStr "abc")]) ]).

Definition write_request : loc * props :=
  (3%positive,
   [ ("timeout", VNum 1000); ("path", VStr "/secret/foo");
     ("json", VObj [("name", VStr "foo/bar")]); ("method", VStr "PUT");
     ("uri", VStr "http://127.0.0.1:8200/v1/secret/foo");
     ("headers", VObj [("X-Vault-Token", VStr "abc")]) ]).

(** * Properties *)

(** ** Objects as property lists *)

Lemma get_set_eq k v o : get k (set k v o) = v.
Proof.
  induction o as [|[k' v'] o IH]; simpl.
  - by rewrite decide_True.
  - destruct (decide (k = k')) as [->|Hne]; simpl.
    + by rewrite decide_True.
    + by rewrite decide_False.
Qed.

Lemma get_set_ne k k' v o : k ≠ k' → get k (set k' v o) = get k o.
Proof.
  intros Hne. induction o as [|[k0 v0] o IH]; simpl.
  - by rewrite decide_False.
  - destruct (decide (k' = k0)) as [->|Hne']; simpl.
    + by rewrite !decide_False.
    + by rewrite IH.
Qed.

Lemma has_set k k' v o : has k (set k' v o) = bool_decide (k = k') || has k o.
Proof.
  induction o as [|[k0 v0] o IH]; simpl.
  - destruct (decide (k = k')); [by rewrite bool_decide_true|by rewrite bool_decide_false].
  - destruct (decide (k' = k0)) as [->|Hne']; simpl.
    + destruct (decide (k = k0)); [by rewrite bool_decide_true|by rewrite bool_decide_false].
    + rewrite IH. destruct (decide (k = k0)) as [->|]; [|done].
      by rewrite orb_true_r.
Qed.

Lemma has_keys k o : has k o = true ↔ k ∈ keys o.
Proof.
  induction o as [|[k0 v0] o IH]; simpl.
  - split; [done|]. intros H%elem_of_nil. done.
  - rewrite elem_of_cons. destruct (decide (k = k0)); [naive_solver|].
    rewrite IH. naive_solver.
Qed.

Lemma get_not_has k o : has k o = false → get k o = VUndef.
Proof.
  induction o as [|[k0 v0] o IH]; simpl; [done|].
  destruct (decide (k = k0)); [done|auto].
Qed.

Lemma keys_set k v o :
  keys (set k v o) = if has k o then keys o else keys o ++ [k].
Proof.
  induction o as [|[k0 v0] o IH]; simpl; [done|].
  destruct (decide (k = k0)) as [->|Hne]; simpl; [done|].
  rewrite IH. by destruct (has k o).
Qed.

Lemma NoDup_set k v o : NoDup (keys o) → NoDup (keys (set k v o)).
Proof.
  intros Hnd. rewrite keys_set. destruct (has k o) eqn:Hk; [done|].
  apply NoDup_app. split_and!; [done| |apply NoDup_singleton].
  intros x Hx ->%list_elem_of_singleton.
  apply has_keys in Hx. congruence.
Qed.

Lemma NoDup_assign a b : NoDup (keys a) → NoDup (keys (assign a b)).
Proof.
  unfold assign. revert a. induction b as [|[k v] b IH]; simpl; [done|].
  intros a Ha. apply IH. by apply NoDup_set.
Qed.

Lemma NoDup_merge a b : NoDup (keys (merge a b)).
Proof. unfold merge. do 2 apply NoDup_assign. simpl. apply NoDup_nil_2. Qed.

Lemma keys_del k o : keys (del k o) ⊆ keys o.
Proof.
  induction o as [|[k0 v0] o IH]; simpl; [done|].
  destruct (decide (k = k0)); simpl.
  - set_solver.
  - set_solver.
Qed.

Lemma NoDup_del k o : NoDup (keys o) → NoDup (keys (del k o)).
Proof.
  induction o as [|[k0 v0] o IH]; simpl; [done|].
  intros [Hn Hnd]%NoDup_cons. destruct (decide (k = k0)); simpl; [done|].
  apply NoDup_cons. split; [|auto].
  intros Hin. apply Hn. by apply (keys_del k o).
Qed.

Lemma has_del k o : NoDup (keys o) → has k (del k o) = false.
Proof.
  induction o as [|[k0 v0] o IH]; simpl; [done|].
  intros [Hn Hnd]%NoDup_cons. destruct (decide (k = k0)) as [->|Hne]; simpl.
  - destruct (has k0 o) eqn:Hk; [|done]. by apply has_keys in Hk.
  - rewrite decide_False by done. auto.
Qed.

Lemma get_del_ne k k' o : k ≠ k' → get k (del k' o) = get k o.
Proof.
  intros Hne. induction o as [|[k0 v0] o IH]; simpl; [done|].
  destruct (decide (k' = k0)) as [->|Hne']; simpl.
  - by rewrite decide_False.
  - by rewrite IH.
Qed.

Lemma has_del_ne k k' o : k ≠ k' → has k (del k' o) = has k o.
Proof.
  intros Hne. induction o as [|[k0 v0] o IH]; simpl; [done|].
  destruct (decide (k' = k0)) as [->|Hne']; simpl.
  - by rewrite decide_False.
  - by rewrite IH.
Qed.

(** Setting a property to the value it has changes nothing. *)
Lemma set_same k o : has k o = true → set k (get k o) o = o.
Proof.
  induction o as [|[k0 v0] o IH]; simpl; [done|].
  destruct (decide (k = k0)) as [->|Hne]; [done|].
  intros Hk. by rewrite IH.
Qed.

Lemma get_elem k v o : NoDup (keys o) → (k, v) ∈ o → get k o = v ∧ has k o = true.
Proof.
  induction o as [|[k0 v0] o IH]; simpl.
  - by intros _ ?%elem_of_nil.
  - intros [Hn Hnd]%NoDup_cons [Heq|Hin]%elem_of_cons.
    + inversion Heq; subst. by rewrite !decide_True.
    + destruct (decide (k = k0)) as [->|Hne]; [|auto].
      exfalso. apply Hn. apply list_elem_of_fmap. by exists (k0, v).
Qed.

Lemma assign_same a b :
  (∀ k v, (k, v) ∈ b → get k a = v ∧ has k a = true) → assign a b = a.
Proof.
  unfold assign. induction b as [|[k v] b IH]; simpl; [done|].
  intros Hb. destruct (Hb k v) as [Hg Hh]; [by left|].
  rewrite <- Hg, set_same by done. apply IH.
  intros k' v' Hin. apply Hb. by right.
Qed.

(** On a well-formed object [defaults] overwrites: the trailing source is
    the target itself, already updated. *)
Lemma defaults_overwrites obj vals :
  NoDup (keys obj) → defaults obj vals = assign obj vals.
Proof.
  intros Hnd. unfold defaults. apply assign_same.
  intros k v Hin. apply get_elem; [|done]. by apply NoDup_assign.
Qed.

Lemma get_assign_cons a k v b :
  assign a ((k, v) :: b) = assign (set k v a) b.
Proof. done. Qed.

(** Later sources win. *)
Lemma get_assign k a b :
  NoDup (keys b) →
  get k (assign a b) = if has k b then get k b else get k a.
Proof.
  revert a. induction b as [|[k0 v0] b IH]; intros a; [done|].
  intros [Hn Hnd]%NoDup_cons. rewrite get_assign_cons, IH by done. simpl.
  destruct (decide (k = k0)) as [->|Hne].
  - destruct (has k0 b) eqn:Hk; [by apply has_keys in Hk|].
    apply get_set_eq.
  - destruct (has k b); [done|]. by apply get_set_ne.
Qed.

Lemma has_assign k a b : has k (assign a b) = has k a || has k b.
Proof.
  revert a. induction b as [|[k0 v0] b IH]; intros a.
  - simpl. by rewrite orb_false_r.
  - rewrite get_assign_cons, IH, has_set. simpl.
    destruct (decide (k = k0)) as [->|Hne].
    + rewrite bool_decide_true by done. simpl. by rewrite !orb_true_r.
    + rewrite bool_decide_false by done. simpl. done.
Qed.

(** ** The response interpreter *)

Lemma success_status_includes code :
  existsb (Z.eqb code) [200; 204] = true ↔ success_status code.
Proof. unfold success_status. simpl. lia. Qed.

Lemma truthy_of_errors body :
  truthy (data_get body "errors") = true → truthy body = true.
Proof. by destruct body as [| |[]|n|[|c s]|xs|ps|l]; try destruct n. Qed.

Lemma hasErrors_array body e es :
  data_get body "errors" = VArr (e :: es) → hasErrors body = Some true.
Proof.
  intros He. unfold hasErrors.
  rewrite (truthy_of_errors body) by (by rewrite He). by rewrite He.
Qed.

Lemma hasErrors_none body :
  data_get body "errors" = VUndef ∨ data_get body "errors" = VArr [] →
  hasErrors body = Some false.
Proof.
  unfold hasErrors. intros [He|He]; rewrite He; simpl; by destruct (truthy body).
Qed.

(** C1.  [handleVaultResponse] on a response that is present: status 200 or
    204 resolves with the body as it is, whatever the body holds; any other
    status on a path that matches [/sys\/health/] resolves with the body
    too; otherwise the call rejects, with the first entry of the body's
    [errors] array as the message when the array is non-empty, and with
    [Status <code>] when the body has no [errors] or an empty one. *)
Theorem handleVaultResponse_spec (r : Response) :
  (success_status (statusCode r) →
     handleVaultResponse (Some r) = Resolved (body r)) ∧
  (¬ success_status (statusCode r) →
     includes "sys/health" (request_path r) = true →
     handleVaultResponse (Some r) = Resolved (body r)) ∧
  (¬ success_status (statusCode r) →
     includes "sys/health" (request_path r) = false →
     ∀ e es, data_get (body r) "errors" = VArr (e :: es) →
     handleVaultResponse (Some r) = Rejected (new_Error e)) ∧
  (¬ success_status (statusCode r) →
     includes "sys/health" (request_path r) = false →
     data_get (body r) "errors" = VUndef ∨ data_get (body r) "errors" = VArr [] →
     handleVaultResponse (Some r) =
       Rejected (JsError ("Status " +:+ pretty (statusCode r)))).
Proof.
  unfold handleVaultResponse.
  destruct (existsb (Z.eqb (statusCode r)) [200; 204]) eqn:Hs.
  - apply success_status_includes in Hs. by split_and!.
  - assert (¬ success_status (statusCode r)) as Hn.
    { rewrite <- success_status_includes. congruence. }
    split_and!; [done| | |].
    + by intros _ ->.
    + intros _ -> e es He. by rewrite (hasErrors_array _ _ _ He), He.
    + intros _ -> He. by rewrite (hasErrors_none _ He).
Qed.

(** An absent response rejects with a message of its own. *)
Lemma handleVaultResponse_absent :
  handleVaultResponse None = Rejected (JsError "No response passed").
Proof. reflexivity. Qed.

Lemma handleVaultResponse_spec_witness :
  handleVaultResponse (Some response_200_errors)
    = Resolved (VObj [("errors", VArr [VStr "x"])]) ∧
  handleVaultResponse (Some response_500_health) = Resolved (VObj []) ∧
  handleVaultResponse (Some response_500_bad) = Rejected (JsError "bad") ∧
  handleVaultResponse (Some response_500_empty) = Rejected (JsError "Status 500").
Proof.
  split_and!.
  - apply (proj1 (handleVaultResponse_spec response_200_errors)).
    left. reflexivity.
  - apply (proj1 (proj2 (handleVaultResponse_spec response_500_health))).
    + unfold success_status. simpl. lia.
    + reflexivity.
  - apply (proj1 (proj2 (proj2 (handleVaultResponse_spec response_500_bad)))
             ltac:(unfold success_status; simpl; lia) eq_refl (VStr "bad") []).
    reflexivity.
  - apply (proj2 (proj2 (proj2 (handleVaultResponse_spec response_500_empty)))
             ltac:(unfold success_status; simpl; lia) eq_refl).
    left. reflexivity.
Defined.

(** ** Running the pipeline *)

Lemma obj_at_insert_eq (h : heap) l ps : obj_at (<[l := ps]> h) l = ps.
Proof. unfold obj_at. by rewrite lookup_insert_eq. Qed.

Lemma obj_at_insert_ne (h : heap) l l' ps :
  l ≠ l' → obj_at (<[l := ps]> h) l' = obj_at h l'.
Proof. intros. unfold obj_at. by rewrite lookup_insert_ne. Qed.

Lemma fresh_loc_fresh (h : heap) : h !! fresh_loc h = None.
Proof. apply not_elem_of_dom. unfold fresh_loc. apply (is_fresh (dom h)). Qed.

Lemma fresh_loc_ne (h : heap) l : is_Some (h !! l) → l ≠ fresh_loc h.
Proof. intros [x Hx] ->. by rewrite fresh_loc_fresh in Hx. Qed.

Lemma insert_over (h : heap) f l x y o :
  l ≠ f → <[f := x]> (<[l := o]> (<[f := y]> h)) = <[l := o]> (<[f := x]> h).
Proof.
  intros Hne. rewrite (insert_insert_ne _ f l) by done. by rewrite insert_insert_eq.
Qed.

Lemma get_headers_final o' uri hd :
  get "headers" (final_options o' uri hd) = VRef hd.
Proof.
  unfold final_options. rewrite !get_assign_cons. simpl. apply get_set_eq.
Qed.

Section Runs.

Context (config : VaultConfig) (env : Env) (tv4 : validator)
        (rp : props → outcome (option Response)).

Lemma inherit_options_run l w :
  inherit_options config l w =
    (target_loc (store w) l,
     {| store := <[target_loc (store w) l :=
                     merged_options config (obj_at (store w) l)]> (store w);
        wire := wire w |}).
Proof.
  unfold inherit_options, target_loc, merged_options, mbind, M_bind, read.
  destruct (no_inherit (obj_at (store w) l)); simpl.
  - done.
  - unfold update. simpl. by rewrite obj_at_insert_eq, insert_insert_eq.
Qed.

Lemma NoDup_merged_options o :
  NoDup (keys o) → NoDup (keys (merged_options config o)).
Proof.
  intros Hnd. unfold merged_options. apply NoDup_del.
  destruct (no_inherit o); [done|apply NoDup_merge].
Qed.

Lemma request_run l w :
  let o' := merged_options config (obj_at (store w) l) in
  let l' := target_loc (store w) l in
  let h1 := <[l' := o']> (store w) in
  NoDup (keys (obj_at (store w) l)) →
  request config env tv4 rp l w =
    match tv4 (VObj o') requestSchema with
    | Some e => (Rejected (SchemaError e), {| store := h1; wire := wire w |})
    | None =>
        match mustache_render (uriTpl config env o') (deref h1 (get "json" o')) with
        | Unclosed => (Thrown TemplateError, {| store := h1; wire := wire w |})
        | Unsupported => (Beyond, {| store := h1; wire := wire w |})
        | Rendered s =>
            let hd := fresh_loc h1 in
            let o2 := final_options o' (replace_all "&#x2F;" "/" s) hd in
            let h2 := <[l' := o2]> (<[hd := token_headers config env]> h1) in
            (then_handle (rp (snapshot h2 l')),
             {| store := h2; wire := wire w ++ [(l', snapshot h2 l')] |})
        end
    end.
Proof.
  intros o' l' h1 Hnd.
  unfold request, mbind, M_bind. rewrite inherit_options_run.
  fold o' l' h1. simpl.
  assert (obj_at h1 l' = o') as Ho by apply obj_at_insert_eq.
  assert (l' ≠ fresh_loc h1) as Hne.
  { apply fresh_loc_ne. unfold h1. by rewrite lookup_insert_eq. }
  rewrite Ho.
  destruct (tv4 (VObj o') requestSchema); [done|].
  simpl. rewrite Ho.
  destruct (mustache_render _ _); [|done|done].
  simpl.
  rewrite !(obj_at_insert_ne _ (fresh_loc h1) l') by done.
  rewrite !obj_at_insert_eq, Ho.
  rewrite defaults_overwrites by (by apply NoDup_merged_options).
  fold (final_options o' (replace_all "&#x2F;" "/" s) (fresh_loc h1)).
  rewrite get_headers_final. simpl. rewrite andb_true_r.
  unfold token_headers, send.
  destruct (has_token config env); simpl.
  - rewrite obj_at_insert_ne, obj_at_insert_eq by done. simpl.
    by rewrite insert_over.
  - done.
Qed.

End Runs.

Lemma sent_app w w' xs : wire w' = wire w ++ xs → sent w w' = xs.
Proof. unfold sent. intros ->. by rewrite drop_app_length. Qed.

Lemma sent_same w w' : wire w' = wire w → sent w w' = [].
Proof. intros H. apply sent_app. by rewrite app_nil_r. Qed.

Lemma get_snapshot k h l : get k (snapshot h l) = deref h (get k (obj_at h l)).
Proof.
  unfold snapshot. induction (obj_at h l) as [|[k0 v0] o IH]; simpl; [done|].
  by destruct (decide (k = k0)).
Qed.

Section Request.

Context (config : VaultConfig) (env : Env) (tv4 : validator)
        (rp : props → outcome (option Response)).

(** What a call of [request] leaves behind: either nothing was sent and only
    the object the call works on was written, or the options passed
    validation, the URI template rendered, and one request was sent from
    that object. *)
Lemma request_cases l w :
  let o' := merged_options config (obj_at (store w) l) in
  let l' := target_loc (store w) l in
  let h1 := <[l' := o']> (store w) in
  let w' := snd (request config env tv4 rp l w) in
  NoDup (keys (obj_at (store w) l)) →
  (sent w w' = [] ∧ store w' = h1) ∨
  (∃ s,
      tv4 (VObj o') requestSchema = None ∧
      mustache_render (uriTpl config env o') (deref h1 (get "json" o'))
        = Rendered s ∧
      let hd := fresh_loc h1 in
      let o2 := final_options o' (replace_all "&#x2F;" "/" s) hd in
      let h2 := <[l' := o2]> (<[hd := token_headers config env]> h1) in
      sent w w' = [(l', snapshot h2 l')] ∧ store w' = h2).
Proof.
  intros o' l' h1 w' Hnd. unfold w'.
  rewrite (request_run config env tv4 rp l w Hnd). fold o' l' h1.
  destruct (tv4 (VObj o') requestSchema) eqn:Hv.
  { left. by split; [apply sent_same|]. }
  destruct (mustache_render _ _) eqn:Hr.
  - right. exists s. split; [done|]. split; [done|]. simpl. split; [|done].
    by apply sent_app.
  - left. by split; [apply sent_same|].
  - left. by split; [apply sent_same|].
Qed.

Lemma target_loc_fresh_or_same l (h : heap) :
  is_Some (h !! l) →
  (no_inherit (obj_at h l) = true ∧ target_loc h l = l) ∨
  (no_inherit (obj_at h l) = false ∧ target_loc h l ≠ l ∧ h !! target_loc h l = None).
Proof.
  intros Hl. unfold target_loc. destruct (no_inherit (obj_at h l)); [by left|].
  right. split_and!; [done| |apply fresh_loc_fresh].
  intros Heq. by apply (fresh_loc_ne h l).
Qed.

End Request.

Section Operation.

Context (config : VaultConfig) (env : Env) (tv4 : validator)
        (rp : props → outcome (option Response)).

Lemma NoDup_operation_options conf h args :
  NoDup (keys (operation_options conf h args)).
Proof. unfold operation_options. apply NoDup_assign, NoDup_merge. Qed.

Lemma get_json_operation_options conf h args :
  get "json" (operation_options conf h args) = VRef args.
Proof.
  unfold operation_options. rewrite get_assign; [done|].
  simpl. repeat (apply NoDup_cons_2; [set_solver|]). apply NoDup_nil_2.
Qed.

Lemma obj_at_insert_id (h : heap) l : is_Some (h !! l) → <[l := obj_at h l]> h = h.
Proof. intros [o Ho]. unfold obj_at. rewrite Ho. by apply insert_id. Qed.

Lemma extendOptions_run conf l w :
  is_Some (store w !! l) →
  extendOptions conf l w =
    match extended conf (deref (store w) (get "json" (obj_at (store w) l)))
            (obj_at (store w) l) with
    | None => (Thrown TypeError, w)
    | Some o' => (Resolved l, {| store := <[l := o']> (store w); wire := wire w |})
    end.
Proof.
  intros Hl. unfold extendOptions, extended, query_params.
  destruct (conf_schema conf) as [decl|]; [|done].
  destruct (query decl) as [schema|].
  - unfold mbind, M_bind. simpl.
    destruct (get "properties" schema); try done;
      by destruct (collect _ _ _).
  - rewrite obj_at_insert_id by done. by destruct w.
Qed.

Lemma and_then_run {A B} (p : M (outcome A)) (f : A → M (outcome B)) w :
  and_then p f w =
    match fst (p w) with
    | Resolved a => (caught (fst (f a (snd (p w)))), snd (f a (snd (p w))))
    | Rejected e => (Rejected e, snd (p w))
    | Thrown e => (Thrown e, snd (p w))
    | Beyond => (Beyond, snd (p w))
    end.
Proof.
  unfold and_then, mbind, M_bind. destruct (p w) as [[a|e|e|] w']; simpl; try done.
  by destruct (f a w').
Qed.

Lemma validate_json_run l schema w :
  (json ← json_of l; validate tv4 json schema) w =
    (match check tv4 (deref (store w) (get "json" (obj_at (store w) l))) schema with
     | Some e => Rejected (SchemaError e)
     | None => Resolved tt
     end, w).
Proof.
  unfold json_of, validate, check, mbind, M_bind. simpl.
  destruct schema as [s|]; [|done]. by destruct (tv4 _ s).
Qed.

Lemma operation_run conf args w :
  let h := store w in
  let l1 := fresh_loc h in
  let o1 := operation_options conf h args in
  let doc := VObj (obj_at h args) in
  let w1 := {| store := <[l1 := o1]> h; wire := wire w |} in
  is_Some (h !! args) →
  operation config env tv4 rp conf args w =
    match conf_schema conf with
    | None => request config env tv4 rp l1 w1
    | Some decl =>
        match check tv4 doc (req decl) with
        | Some e => (Rejected (SchemaError e), w1)
        | None =>
            match check tv4 doc (query decl) with
            | Some e => (Rejected (SchemaError e), w1)
            | None =>
                match extended conf doc o1 with
                | None => (Rejected TypeError, w1)
                | Some o1' =>
                    let rw := request config env tv4 rp l1
                                {| store := <[l1 := o1']> h; wire := wire w |} in
                    (caught (fst rw), snd rw)
                end
            end
        end
    end.
Proof.
  intros h l1 o1 doc w1 Hargs.
  assert (args ≠ l1) as Hne by by apply fresh_loc_ne.
  change (operation config env tv4 rp conf args w) with
    (match conf_schema conf with
     | None => request config env tv4 rp l1
     | Some decl =>
         and_then
           (and_then
              (and_then (json ← json_of l1; validate tv4 json (req decl))
                 (fun _ => json ← json_of l1; validate tv4 json (query decl)))
              (fun _ => extendOptions conf l1))
           (request config env tv4 rp)
     end w1).
  destruct (conf_schema conf) as [decl|] eqn:Hs; [|done].
  assert (deref (<[l1:=o1]> h) (get "json" (obj_at (<[l1:=o1]> h) l1)) = doc)
    as Hdoc.
  { rewrite obj_at_insert_eq. unfold o1.
    rewrite get_json_operation_options. simpl.
    by rewrite obj_at_insert_ne. }
  assert (obj_at (<[l1:=o1]> h) l1 = o1) as Ho1 by apply obj_at_insert_eq.
  assert (is_Some (store w1 !! l1)) as Hl1.
  { unfold w1. simpl. rewrite lookup_insert_eq. by eexists. }
  rewrite !and_then_run, !validate_json_run. simpl fst. simpl snd.
  rewrite !Hdoc.
  destruct (check tv4 doc (req decl)); [done|]. simpl.
  destruct (check tv4 doc (query decl)); [done|]. simpl.
  rewrite (extendOptions_run conf l1 w1 Hl1). simpl. rewrite Hdoc, Ho1.
  destruct (extended conf doc o1) as [o1'|]; [|done].
  simpl. by rewrite insert_insert_eq.
Qed.

End Operation.

Section Dispatch.

Context (config : VaultConfig) (env : Env) (tv4 : validator)
        (rp : props → outcome (option Response)).

Lemma NoDup_extended conf doc o o' :
  NoDup (keys o) → extended conf doc o = Some o' → NoDup (keys o').
Proof.
  unfold extended. intros Hnd.
  destruct (conf_schema conf) as [decl|]; [|done].
  destruct (query decl) as [schema|]; [|by intros [= <-]].
  destruct (query_params schema doc); [|done].
  intros [= <-]. by apply NoDup_set.
Qed.

Lemma NoDup_prepared conf h args o :
  prepared tv4 conf h args = Some o → NoDup (keys o).
Proof.
  unfold prepared.
  destruct (conf_schema conf) as [decl|].
  - destruct (check tv4 _ (req decl)); [done|].
    destruct (check tv4 _ (query decl)); [done|].
    apply NoDup_extended, NoDup_operation_options.
  - intros [= <-]. apply NoDup_operation_options.
Qed.

(** A generated operation either stops before [request], leaving only its
    own options object behind, or ends as the call of [request] on that
    object. *)
Lemma operation_cases conf args w :
  let h := store w in
  let l1 := fresh_loc h in
  let w' := snd (operation config env tv4 rp conf args w) in
  is_Some (h !! args) →
  match prepared tv4 conf h args with
  | None =>
      wire w' = wire w ∧ store w' = <[l1 := operation_options conf h args]> h
  | Some o =>
      w' = snd (request config env tv4 rp l1
                  {| store := <[l1 := o]> h; wire := wire w |})
  end.
Proof.
  intros h l1 w' Hargs. unfold w', prepared.
  rewrite (operation_run config env tv4 rp conf args w Hargs). fold h l1.
  destruct (conf_schema conf) as [decl|]; [|done].
  destruct (check tv4 _ (req decl)); [done|].
  destruct (check tv4 _ (query decl)); [done|].
  by destruct (extended conf _ _).
Qed.

Lemma sent_same_wire w1 w2 w' : wire w1 = wire w2 → sent w1 w' = sent w2 w'.
Proof. unfold sent. by intros ->. Qed.





End Dispatch.

(** ** The request schema under the default validator *)

Lemma validate_string v :
  validateAll string_schema v = None ↔ is_string v = true.
Proof. by destruct v. Qed.

Lemma tv4_requestSchema_unfold o :
  tv4_validate (VObj o) requestSchema =
    match validateRequired o O [VStr "path"; VStr "method"] with
    | Some e => Some e
    | None =>
        validateProperties
          [("path", validateAll string_schema); ("method", validateAll string_schema)] o
    end.
Proof. reflexivity. Qed.

Lemma validateProperties_request o :
  validateProperties
    [("path", validateAll string_schema); ("method", validateAll string_schema)] o
  = None ↔
  ∀ k v, (k, v) ∈ o → k = "path" ∨ k = "method" → is_string v = true.
Proof.
  induction o as [|[k v] o IH].
  - split; [|done]. by intros _ k v ?%elem_of_nil.
  - cbn [validateProperties List.find fst].
    destruct (decide (k = "path")) as [->|Hp].
    + rewrite bool_decide_true by done.
      destruct (validateAll string_schema v) eqn:Hv.
      * split; [done|]. intros H. specialize (H "path" v).
        apply validate_string in H; [congruence|by left|by left].
      * rewrite IH. apply validate_string in Hv. split.
        -- intros H k' v' [[= -> ->]|Hin]%elem_of_cons; [done|by apply H].
        -- intros H k' v' Hin. apply H. by right.
    + rewrite (bool_decide_false (_ = k)) by congruence.
      destruct (decide (k = "method")) as [->|Hm].
      * rewrite bool_decide_true by done.
        destruct (validateAll string_schema v) eqn:Hv.
        -- split; [done|]. intros H. specialize (H "method" v).
           apply validate_string in H; [congruence|by left|by right].
        -- rewrite IH. apply validate_string in Hv. split.
           ++ intros H k' v' [[= -> ->]|Hin]%elem_of_cons; [done|by apply H].
           ++ intros H k' v' Hin. apply H. by right.
      * rewrite (bool_decide_false (_ = k)) by congruence.
        rewrite IH. split.
        -- intros H k' v' [[= -> ->]|Hin]%elem_of_cons; [naive_solver|by apply H].
        -- intros H k' v' Hin. apply H. by right.
Qed.

Lemma elem_of_get k o : has k o = true → (k, get k o) ∈ o.
Proof.
  induction o as [|[k0 v0] o IH]; simpl; [done|].
  destruct (decide (k = k0)) as [->|Hne]; [by left|].
  intros H. right. auto.
Qed.

Lemma has_of_get k o : get k o ≠ VUndef → has k o = true.
Proof.
  intros H. destruct (has k o) eqn:Hk; [done|]. by apply get_not_has in Hk.
Qed.

Lemma validateRequired_request o :
  validateRequired o O [VStr "path"; VStr "method"] = None ↔
  get "path" o ≠ VUndef ∧ get "method" o ≠ VUndef.
Proof.
  simpl. destruct (get "path" o); destruct (get "method" o); naive_solver.
Qed.

(** The request schema asks for a [path] and a [method] that are strings,
    and for nothing else. *)
Lemma tv4_requestSchema_valid o :
  tv4_validate (VObj o) requestSchema = None →
  is_string (get "path" o) = true ∧ is_string (get "method" o) = true.
Proof.
  rewrite tv4_requestSchema_unfold.
  destruct (validateRequired o O _) eqn:Hr; [done|].
  apply validateRequired_request in Hr as [Hp Hm].
  intros Hv. rewrite validateProperties_request in Hv.
  split.
  - apply (Hv "path"); [|by left]. by apply elem_of_get, has_of_get.
  - apply (Hv "method"); [|by right]. by apply elem_of_get, has_of_get.
Qed.

Lemma tv4_requestSchema_strings o :
  NoDup (keys o) →
  is_string (get "path" o) = true → is_string (get "method" o) = true →
  tv4_validate (VObj o) requestSchema = None.
Proof.
  intros Hnd Hp Hm. rewrite tv4_requestSchema_unfold.
  destruct (validateRequired o O _) eqn:Hr.
  - assert (validateRequired o 0 [VStr "path"; VStr "method"] = None) as Hn.
    { apply validateRequired_request.
      split; intros Hu; [rewrite Hu in Hp|rewrite Hu in Hm]; done. }
    congruence.
  - apply validateProperties_request.
    intros k v Hin [->| ->]; apply (get_elem _ _ _ Hnd) in Hin as [<- _]; done.
Qed.

(** ** Replacing the slash entity *)

Lemma replace_go_step pat rep c r :
  replace_go pat rep O (String c r) =
    if String.prefix pat (String c r)
    then rep +:+ replace_go pat rep (Nat.pred (String.length pat)) r
    else String c (replace_go pat rep O r).
Proof. reflexivity. Qed.

Lemma includes_step pat c r :
  includes pat (String c r) = String.prefix pat (String c r) || includes pat r.
Proof. simpl. by destruct (String.prefix pat (String c r)). Qed.

Lemma prefix_cons a q c r :
  String.prefix (String a q) (String c r) = bool_decide (a = c) && String.prefix q r.
Proof.
  simpl. destruct (ascii_dec a c).
  - by rewrite bool_decide_true.
  - by rewrite bool_decide_false.
Qed.

Lemma app_slash x : "/" +:+ x = String "/" x.
Proof. reflexivity. Qed.

(** A prefix without a slash that shows after the replacement was there
    before it. *)
Lemma prefix_replaced q r :
  includes "/" q = false →
  String.prefix q (replace_all "&#x2F;" "/" r) = true →
  String.prefix q r = true.
Proof.
  unfold replace_all. revert r. induction q as [|a q IH]; intros r Hq.
  { by destruct r. }
  rewrite includes_step in Hq. apply orb_false_elim in Hq as [Ha Hq].
  destruct r as [|c r]; [done|].
  rewrite replace_go_step.
  destruct (String.prefix "&#x2F;" (String c r)).
  - rewrite app_slash. rewrite prefix_cons.
    intros [Hs _]%andb_prop. apply bool_decide_eq_true in Hs as ->.
    rewrite prefix_cons, bool_decide_true in Ha by done.
    by destruct q.
  - rewrite !prefix_cons. intros [Hs Hp]%andb_prop.
    rewrite Hs. simpl. by apply IH.
Qed.

Lemma replace_go_clean k s :
  includes "&#x2F;" (replace_go "&#x2F;" "/" k s) = false.
Proof.
  revert k. induction s as [|c r IH]; intros k; [by destruct k|].
  destruct k as [|k]; [|apply IH].
  rewrite replace_go_step.
  destruct (String.prefix "&#x2F;" (String c r)) eqn:Hp.
  - rewrite app_slash.
    rewrite includes_step, IH, orb_false_r. by rewrite prefix_cons.
  - rewrite includes_step, IH, orb_false_r.
    destruct (String.prefix "&#x2F;" (String c (replace_go "&#x2F;" "/" 0 r)))
      eqn:Hq; [|done].
    rewrite prefix_cons in Hq. apply andb_prop in Hq as [Hc Hq].
    apply (prefix_replaced "#x2F;" r eq_refl) in Hq.
    rewrite prefix_cons, Hc, Hq in Hp. done.
Qed.

(** After the replacement no slash entity is left. *)
Lemma replace_all_clean s :
  includes "&#x2F;" (replace_all "&#x2F;" "/" s) = false.
Proof. apply replace_go_clean. Qed.

Lemma replace_go_id s :
  includes "&#x2F;" s = false → replace_go "&#x2F;" "/" O s = s.
Proof.
  induction s as [|c r IH]; [done|].
  rewrite includes_step, replace_go_step.
  intros [-> Hr]%orb_false_elim. by rewrite IH.
Qed.

Section Sending.

Context (config : VaultConfig) (env : Env) (tv4 : validator)
        (rp : props → outcome (option Response)).

(** C4.  The URI of every request [request] sends is the rendering of the
    template [endpoint/apiVersion + path] against the [json] body, with
    every [&#x2F;] replaced by a slash: what the replacement returns holds
    no [&#x2F;], and a text without one is returned as it is.  The rendering
    of [/secret/{{name}}] against a body whose [name] is [foo/bar] gives,
    after that replacement, [/secret/foo/bar]. *)
Theorem request_uri :
  (∀ l w e,
      NoDup (keys (obj_at (store w) l)) →
      e ∈ sent w (snd (request config env tv4 rp l w)) →
      let o' := merged_options config (obj_at (store w) l) in
      let view := deref (<[target_loc (store w) l := o']> (store w))
                    (get "json" o') in
      ∃ s, mustache_render (uriTpl config env o') view = Rendered s ∧
           get "uri" (snd e) = VStr (replace_all "&#x2F;" "/" s)) ∧
  (∀ o, uriTpl config env o =
          js_string (endpoint (client config env)) +:+ "/" +:+
          js_string (apiVersion (client config env)) +:+ js_string (get "path" o)) ∧
  (∀ s, includes "&#x2F;" (replace_all "&#x2F;" "/" s) = false) ∧
  (∀ s, includes "&#x2F;" s = false → replace_all "&#x2F;" "/" s = s) ∧
  (∃ s, mustache_render "/secret/{{name}}" (VObj [("name", VStr "foo/bar")])
          = Rendered s ∧
        replace_all "&#x2F;" "/" s = "/secret/foo/bar").
Proof.
  split_and!.
  - intros l w e Hnd He o' view.
    destruct (request_cases config env tv4 rp l w Hnd)
      as [[Hs _]|(s & _ & Hr & Hs & _)]; rewrite Hs in He.
    { by apply elem_of_nil in He. }
    apply list_elem_of_singleton in He as ->. exists s. split; [done|]. simpl.
    rewrite get_snapshot, obj_at_insert_eq. unfold final_options.
    rewrite !get_assign_cons. simpl. rewrite get_set_ne by done.
    by rewrite get_set_eq.
  - done.
  - apply replace_all_clean.
  - apply replace_go_id.
  - eexists. split; reflexivity.
Qed.

(** C10.  [request] with [inherit === false] works on the caller's own
    object: the [inherit] key is deleted from it, the request is sent from
    it, and when a request is sent the object has received [uri] and a new
    [headers] object holding the token header.  In every other call the
    caller's object is left as it was and the request is sent from a new
    object. *)
Theorem request_aliasing l w :
  let o := obj_at (store w) l in
  let w' := snd (request config env tv4 rp l w) in
  NoDup (keys o) →
  is_Some (store w !! l) →
  (no_inherit o = true →
     has "inherit" (obj_at (store w') l) = false ∧
     (∀ e, e ∈ sent w w' → fst e = l) ∧
     (sent w w' = [] → obj_at (store w') l = del "inherit" o) ∧
     (sent w w' ≠ [] →
        ∃ uri hd,
          obj_at (store w') l =
            assign (del "inherit" o) [("uri", VStr uri); ("headers", VRef hd)] ∧
          store w !! hd = None ∧
          obj_at (store w') hd = token_headers config env)) ∧
  (no_inherit o = false →
     store w' !! l = store w !! l ∧
     (∀ e, e ∈ sent w w' → fst e ≠ l ∧ store w !! fst e = None)).
Proof.
  intros o w' Hnd Hl.
  pose proof (request_cases config env tv4 rp l w Hnd) as Hc. simpl in Hc.
  fold w' o in Hc.
  set (o' := merged_options config o) in *.
  set (l' := target_loc (store w) l) in *.
  set (h1 := <[l' := o']> (store w)) in *.
  assert (l' ≠ fresh_loc h1) as Hfresh.
  { apply fresh_loc_ne. unfold h1. rewrite lookup_insert_eq. by eexists. }
  assert (store w !! fresh_loc h1 = None) as Hnew.
  { rewrite <- (lookup_insert_ne (store w) l' (fresh_loc h1) o') by done.
    apply fresh_loc_fresh. }
  split.
  - intros Hi.
    assert (l' = l) as Hl' by (unfold l', target_loc; fold o; by rewrite Hi).
    assert (o' = del "inherit" o) as Ho'
      by (unfold o', merged_options; by rewrite Hi).
    destruct Hc as [[Hs Hst]|(s & _ & _ & Hs & Hst)]; rewrite Hs, Hst.
    + unfold h1. rewrite Hl', obj_at_insert_eq, Ho'.
      split_and!; [by apply has_del| |done|done].
      by intros e ?%elem_of_nil.
    + rewrite Hl' in *. rewrite obj_at_insert_eq.
      split_and!.
      * unfold final_options. rewrite has_assign, Ho', has_del by done. done.
      * by intros e ->%list_elem_of_singleton.
      * done.
      * intros _. exists (replace_all "&#x2F;" "/" s), (fresh_loc h1).
        split_and!; [by rewrite Ho'|done|].
        by rewrite obj_at_insert_ne, obj_at_insert_eq.
  - intros Hi.
    destruct (target_loc_fresh_or_same l (store w) Hl)
      as [[Ht _]|(_ & Hne & Hnone)]; [fold o in Ht; congruence|].
    fold l' in Hne, Hnone.
    destruct Hc as [[Hs Hst]|(s & _ & _ & Hs & Hst)]; rewrite Hs, Hst.
    + split; [by apply lookup_insert_ne|]. by intros e ?%elem_of_nil.
    + split.
      * rewrite lookup_insert_ne by done.
        rewrite lookup_insert_ne; [by apply lookup_insert_ne|].
        intros Heq. rewrite <- Heq in Hl. rewrite Hnew in Hl. by destruct Hl.
      * by intros e ->%list_elem_of_singleton.
Qed.

End Sending.

Section DefaultValidator.

Context (config : VaultConfig) (env : Env)
        (rp : props → outcome (option Response)).

Lemma is_string_deref h v : is_string v = true → deref h v = v.
Proof. by destruct v. Qed.

(** C2 (as the code has it).  With the default validator, [request] rejects
    with the validator's own structured error, and sends nothing, unless the
    merged options hold a [path] and a [method] that are strings, in which
    case the options pass; every request sent has a string [path] and a
    string [method]. *)
Theorem request_validation l w :
  let o' := merged_options config (obj_at (store w) l) in
  let rw := request config env tv4_validate rp l w in
  NoDup (keys (obj_at (store w) l)) →
  (is_string (get "path" o') && is_string (get "method" o') = false →
     ∃ e, tv4_validate (VObj o') requestSchema = Some e ∧
          fst rw = Rejected (SchemaError e) ∧
          sent w (snd rw) = []) ∧
  (is_string (get "path" o') && is_string (get "method" o') = true →
     tv4_validate (VObj o') requestSchema = None) ∧
  (∀ e, e ∈ sent w (snd rw) →
        is_string (get "path" (snd e)) = true ∧
        is_string (get "method" (snd e)) = true).
Proof.
  intros o' rw Hnd. split_and!.
  - intros Hbad.
    destruct (tv4_validate (VObj o') requestSchema) as [e|] eqn:Hv.
    + exists e. split; [done|]. unfold rw.
      rewrite (request_run config env tv4_validate rp l w Hnd).
      fold o'. rewrite Hv. simpl. split; [done|]. by apply sent_same.
    + apply tv4_requestSchema_valid in Hv as [Hp Hm].
      rewrite Hp, Hm in Hbad. done.
  - intros [Hp Hm]%andb_prop.
    apply tv4_requestSchema_strings; [|done|done].
    by apply NoDup_merged_options.
  - intros e He.
    destruct (request_cases config env tv4_validate rp l w Hnd)
      as [[Hs _]|(s & Hv & _ & Hs & _)]; fold rw in Hs; rewrite Hs in He.
    { by apply elem_of_nil in He. }
    apply list_elem_of_singleton in He as ->. simpl.
    apply tv4_requestSchema_valid in Hv as [Hp Hm]. fold o' in Hp, Hm.
    rewrite !get_snapshot, obj_at_insert_eq. unfold final_options.
    rewrite !get_assign_cons. simpl.
    rewrite !(get_set_ne _ "headers"), !(get_set_ne _ "uri") by done.
    by rewrite !is_string_deref.
Qed.

End DefaultValidator.

Section Generated.

Context (config : VaultConfig) (env : Env) (tv4 : validator)
        (rp : props → outcome (option Response)).

(** C5.  When the descriptor declares a request-body schema and the
    validator rejects the argument object against it, the generated
    operation rejects with the validator's own error and nothing reaches the
    transport.  When no request-body schema is declared the body is not
    validated against one: the call goes on to the query schema. *)
Theorem invalid_body_not_sent conf decl args w :
  let h := store w in
  let doc := VObj (obj_at h args) in
  let rw := operation config env tv4 rp conf args w in
  is_Some (h !! args) →
  conf_schema conf = Some decl →
  (∀ s e, req decl = Some s → tv4 doc s = Some e →
          fst rw = Rejected (SchemaError e) ∧ sent w (snd rw) = []) ∧
  (req decl = None →
     rw = match check tv4 doc (query decl) with
          | Some e =>
              (Rejected (SchemaError e),
               {| store := <[fresh_loc h := operation_options conf h args]> h;
                  wire := wire w |})
          | None =>
              match extended conf doc (operation_options conf h args) with
              | None =>
                  (Rejected TypeError,
                   {| store := <[fresh_loc h := operation_options conf h args]> h;
                      wire := wire w |})
              | Some o =>
                  let rq := request config env tv4 rp (fresh_loc h)
                              {| store := <[fresh_loc h := o]> h; wire := wire w |} in
                  (caught (fst rq), snd rq)
              end
          end).
Proof.
  intros h doc rw Hargs Hs. unfold rw.
  rewrite (operation_run config env tv4 rp conf args w Hargs), Hs.
  fold h doc. split.
  - intros s e Hreq Hv. rewrite Hreq. simpl. rewrite Hv. simpl.
    split; [done|]. by apply sent_same.
  - by intros ->.
Qed.

Lemma operation_options_own conf h args k :
  k ∈ ["method"; "path"; "json"] →
  get k (operation_options conf h args) =
    get k [ ("method", conf_method conf); ("path", conf_path conf);
            ("json", VRef args) ] ∧
  has k (operation_options conf h args) = true.
Proof.
  intros Hk. unfold operation_options.
  assert (has k [ ("method", conf_method conf); ("path", conf_path conf);
                  ("json", VRef args) ] = true) as Hh.
  { apply has_keys. simpl. set_solver. }
  rewrite has_assign, Hh, orb_true_r. split; [|done].
  rewrite get_assign, Hh; [done|].
  simpl. repeat (apply NoDup_cons_2; [set_solver|]). apply NoDup_nil_2.
Qed.



End Generated.

(** ** Query expansion *)

Lemma collect_pairs body ks acc :
  collect (VObj body) ks acc = Some (acc ++ query_pairs ks body).
Proof.
  revert acc. induction ks as [|k ks IH]; intros acc; simpl.
  - by rewrite app_nil_r.
  - unfold query_pairs. destruct (has k body) eqn:Hk.
    + rewrite IH, filter_cons_True by by apply has_keys.
      by rewrite <- app_assoc.
    + rewrite IH, filter_cons_False; [done|].
      rewrite <- has_keys. congruence.
Qed.

(** C3.  For a descriptor with a query schema, [extendOptions] appends to
    the path the pairs [name=encodeURIComponent(value)] of exactly the
    property names the schema declares that are also keys of the body,
    joined with [&] and prefixed with [?] when there is at least one, in the
    order the schema declares them; a key the schema does not declare never
    shows up. *)
Theorem query_expansion conf decl schema ps body l w :
  let o := obj_at (store w) l in
  let pairs := query_pairs (keys ps) body in
  is_Some (store w !! l) →
  conf_schema conf = Some decl →
  query decl = Some schema →
  get "properties" schema = VObj ps →
  deref (store w) (get "json" o) = VObj body →
  extendOptions conf l w =
    (Resolved l,
     {| store :=
          <[l := set "path"
                   (VStr (js_string (get "path" o) +:+
                          match pairs with
                          | [] => EmptyString
                          | _ => "?" +:+ String.concat "&" pairs
                          end)) o]> (store w);
        wire := wire w |}) ∧
  (∀ p, p ∈ pairs ↔
        ∃ k, k ∈ keys ps ∧ k ∈ keys body ∧
             p = k +:+ "=" +:+ encodeURIComponent (get k body)) ∧
  (∃ ks, ks `sublist_of` keys ps ∧ pairs = query_pair body <$> ks).
Proof.
  intros o pairs Hl Hs Hq Hp Hjson. split_and!.
  - rewrite (extendOptions_run conf l w Hl). fold o. rewrite Hjson.
    unfold extended, query_params. rewrite Hs, Hq, Hp. simpl.
    by rewrite collect_pairs.
  - intros p. unfold pairs, query_pairs. rewrite list_elem_of_fmap.
    split.
    + intros (k & -> & [Hb Hk]%list_elem_of_filter). by exists k.
    + intros (k & Hk & Hb & ->). exists k. split; [done|].
      by apply list_elem_of_filter.
  - exists (filter (λ k, k ∈ keys body) (keys ps)). split; [|done].
    apply sublist_filter.
Qed.

(** ** What a call writes *)

Section Effects.

Context (config : VaultConfig) (env : Env) (tv4 : validator)
        (rp : props → outcome (option Response)).

(** [request] writes to the object it works on and to a new headers object,
    and to nothing else. *)
Lemma request_effect l w :
  let o' := merged_options config (obj_at (store w) l) in
  let w' := snd (request config env tv4 rp l w) in
  NoDup (keys (obj_at (store w) l)) →
  is_Some (store w !! l) →
  (∀ l0, is_Some (store w !! l0) → l0 ≠ l → store w' !! l0 = store w !! l0) ∧
  match tv4 (VObj o') requestSchema,
        mustache_render (uriTpl config env o')
          (deref (<[target_loc (store w) l := o']> (store w)) (get "json" o'))
  with
  | None, Rendered s =>
      ∃ l' hd,
        sent w w' = [(l', snapshot (store w') l')] ∧
        (l' = l ∨ store w !! l' = None) ∧
        store w !! hd = None ∧
        l' ≠ hd ∧
        store w' !! l' = Some (final_options o' (replace_all "&#x2F;" "/" s) hd) ∧
        store w' !! hd = Some (token_headers config env)
  | _, _ => sent w w' = []
  end.
Proof.
  intros o' w' Hnd Hl. unfold w'.
  rewrite (request_run config env tv4 rp l w Hnd). fold o'.
  set (l' := target_loc (store w) l).
  set (h1 := <[l' := o']> (store w)).
  assert (l' ≠ fresh_loc h1) as Hfresh.
  { apply fresh_loc_ne. unfold h1. rewrite lookup_insert_eq. by eexists. }
  assert (store w !! fresh_loc h1 = None) as Hnew.
  { rewrite <- (lookup_insert_ne (store w) l' (fresh_loc h1) o') by done.
    apply fresh_loc_fresh. }
  assert (l' = l ∨ store w !! l' = None) as Hl'.
  { destruct (target_loc_fresh_or_same l (store w) Hl) as [[_ ?]|(_ & _ & ?)];
      [by left|by right]. }
  assert (∀ l0, is_Some (store w !! l0) → l0 ≠ l → l' ≠ l0) as Hother.
  { intros l0 Hl0 Hne Heq. destruct Hl' as [?|Hn]; [congruence|].
    rewrite Heq in Hn. rewrite Hn in Hl0. by destruct Hl0. }
  destruct (tv4 (VObj o') requestSchema) as [e|] eqn:Hv.
  { simpl. split; [|by apply sent_same].
    intros l0 Hl0 Hne. apply lookup_insert_ne. by apply Hother. }
  destruct (mustache_render _ _) as [s| |] eqn:Hr; simpl.
  - split.
    + intros l0 Hl0 Hne.
      rewrite lookup_insert_ne by by apply Hother.
      rewrite lookup_insert_ne.
      * apply lookup_insert_ne. by apply Hother.
      * intros Heq. rewrite <- Heq, Hnew in Hl0. by destruct Hl0.
    + exists l', (fresh_loc h1). split_and!; try done.
      * by apply sent_app.
      * apply lookup_insert_eq.
      * rewrite lookup_insert_ne by done. apply lookup_insert_eq.
  - split; [|by apply sent_same].
    intros l0 Hl0 Hne. apply lookup_insert_ne. by apply Hother.
  - split; [|by apply sent_same].
    intros l0 Hl0 Hne. apply lookup_insert_ne. by apply Hother.
Qed.

Lemma get_json_extended conf doc o o' v :
  extended conf doc o = Some o' → get "json" o = v → get "json" o' = v.
Proof.
  unfold extended.
  destruct (conf_schema conf) as [decl|]; [|done].
  destruct (query decl) as [schema|]; [|by intros [= <-]].
  destruct (query_params schema doc); [|done].
  intros [= <-] <-. by apply get_set_ne.
Qed.

Lemma get_json_prepared conf h args o :
  prepared tv4 conf h args = Some o → get "json" o = VRef args.
Proof.
  unfold prepared.
  destruct (conf_schema conf) as [decl|].
  - destruct (check tv4 _ (req decl)); [done|].
    destruct (check tv4 _ (query decl)); [done|].
    intros He. eapply get_json_extended; [done|].
    apply get_json_operation_options.
  - intros [= <-]. apply get_json_operation_options.
Qed.



Lemma get_json_merged o args :
  NoDup (keys o) → get "json" o = VRef args →
  get "json" (merged_options config o) = VRef args.
Proof.
  intros Hnd Hj. unfold merged_options. rewrite get_del_ne by done.
  destruct (no_inherit o); [done|].
  unfold merge. rewrite get_assign by done.
  rewrite has_of_get; [done|]. by rewrite Hj.
Qed.

(** A generated operation writes to new objects only. *)
Lemma operation_effect conf args w :
  let h := store w in
  let w' := snd (operation config env tv4 rp conf args w) in
  is_Some (h !! args) →
  (∀ l0, is_Some (h !! l0) → store w' !! l0 = h !! l0) ∧
  match prepared tv4 conf h args with
  | None => sent w w' = []
  | Some o =>
      let o' := merged_options config o in
      match tv4 (VObj o') requestSchema,
            mustache_render (uriTpl config env o') (VObj (obj_at h args))
      with
      | None, Rendered s =>
          ∃ l' hd,
            sent w w' = [(l', snapshot (store w') l')] ∧
            h !! l' = None ∧
            h !! hd = None ∧
            l' ≠ hd ∧
            store w' !! l' =
              Some (final_options o' (replace_all "&#x2F;" "/" s) hd) ∧
            store w' !! hd = Some (token_headers config env)
      | _, _ => sent w w' = []
      end
  end.
Proof.
  intros h w' Hargs.
  pose proof (operation_cases config env tv4 rp conf args w Hargs) as Hc.
  simpl in Hc. fold h w' in Hc.
  set (l1 := fresh_loc h) in *.
  assert (h !! l1 = None) as Hl1 by apply fresh_loc_fresh.
  assert (∀ l0, is_Some (h !! l0) → l0 ≠ l1) as Hne.
  { intros l0 Hl0 ->. rewrite Hl1 in Hl0. by destruct Hl0. }
  destruct (prepared tv4 conf h args) as [o|] eqn:Hp.
  - set (wx := {| store := <[l1 := o]> h; wire := wire w |}) in *.
    assert (obj_at (store wx) l1 = o) as Ho by apply obj_at_insert_eq.
    assert (NoDup (keys o)) as Hnd by by eapply NoDup_prepared.
    destruct (request_effect l1 wx) as [Hframe Hsent].
    { by rewrite Ho. }
    { simpl. rewrite lookup_insert_eq. by eexists. }
    rewrite <- Hc in Hframe, Hsent. rewrite Ho in Hsent.
    assert (target_loc (store wx) l1 ≠ args) as Hta.
    { unfold target_loc. destruct (no_inherit _).
      - intros Heq. by apply (Hne args).
      - intros Heq. apply (fresh_loc_ne (store wx) args); [|done].
        simpl. rewrite lookup_insert_ne by (intros ?; by apply (Hne args)). done. }
    rewrite (get_json_merged o args Hnd (get_json_prepared _ _ _ _ Hp)) in Hsent.
    simpl in Hsent. rewrite obj_at_insert_ne in Hsent by done.
    rewrite obj_at_insert_ne in Hsent by (intros ?; by apply (Hne args)).
    split.
    + intros l0 Hl0. rewrite Hframe.
      * simpl. apply lookup_insert_ne. intros ?. by apply (Hne l0).
      * simpl. rewrite lookup_insert_ne by (intros ?; by apply (Hne l0)). done.
      * by apply Hne.
    + simpl.
      destruct (tv4 _ requestSchema); [done|].
      destruct (mustache_render _ _); [|done|done].
      destruct Hsent as (l' & hd & Hs & Hl' & Hhd & Hd & Hst & Hh).
      exists l', hd. split_and!; try done.
      * destruct Hl' as [->|Hn]; [done|].
        simpl in Hn. destruct (decide (l1 = l')) as [<-|Hx]; [done|].
        by rewrite lookup_insert_ne in Hn.
      * simpl in Hhd. destruct (decide (l1 = hd)) as [<-|Hx]; [done|].
        by rewrite lookup_insert_ne in Hhd.
  - destruct Hc as [Hw Hst]. split; [|by apply sent_same].
    intros l0 Hl0. rewrite Hst. apply lookup_insert_ne.
    intros ?. by apply (Hne l0).
Qed.

End Effects.

(** ** Two calls in a row *)

Lemma del_set_same k v o : del k (set k v o) = del k o.
Proof.
  induction o as [|[k0 v0] o IH]; simpl.
  - by rewrite decide_True.
  - destruct (decide (k = k0)) as [->|Hne]; simpl.
    + by rewrite decide_True.
    + rewrite decide_False by done. by rewrite IH.
Qed.

Lemma del_headers_final o uri hd :
  del "headers" (final_options o uri hd) = del "headers" (set "uri" (VStr uri) o).
Proof. unfold final_options. rewrite !get_assign_cons. simpl. apply del_set_same. Qed.

Lemma obj_at_lookup (h : heap) l o : h !! l = Some o → obj_at h l = o.
Proof. unfold obj_at. by intros ->. Qed.

Lemma obj_at_frame (h h' : heap) l :
  (∀ l0, is_Some (h !! l0) → h' !! l0 = h !! l0) →
  is_Some (h !! l) → obj_at h' l = obj_at h l.
Proof. intros Hf Hl. unfold obj_at. by rewrite Hf. Qed.

Lemma own_props_frame (h h' : heap) v :
  (∀ l0, is_Some (h !! l0) → h' !! l0 = h !! l0) →
  allocated h v → own_props h' v = own_props h v.
Proof.
  intros Hf Hv. destruct v; try done.
  unfold own_props. simpl in *. by rewrite (obj_at_frame h h').
Qed.

Section Repeated.

Context (config : VaultConfig) (env : Env) (tv4 : validator)
        (rp : props → outcome (option Response)).

Lemma prepared_frame conf (h h' : heap) args :
  (∀ l0, is_Some (h !! l0) → h' !! l0 = h !! l0) →
  is_Some (h !! args) →
  allocated h (get "requestOptions" (obj_at h args)) →
  prepared tv4 conf h' args = prepared tv4 conf h args.
Proof.
  intros Hf Hargs Hro. unfold prepared, operation_options.
  rewrite (obj_at_frame h h' args Hf Hargs).
  by rewrite (own_props_frame h h' _ Hf Hro).
Qed.

(** C9.  Calling a generated operation twice with the same argument object
    leaves every object that existed before a call as it was, so neither
    call sees anything the other wrote; the two calls send the same number
    of requests, from distinct options objects with distinct headers
    objects, and the two requests have the same field values. *)
Theorem repeated_calls conf args w :
  let w1 := snd (operation config env tv4 rp conf args w) in
  let w2 := snd (operation config env tv4 rp conf args w1) in
  is_Some (store w !! args) →
  allocated (store w) (get "requestOptions" (obj_at (store w) args)) →
  (∀ l, is_Some (store w !! l) → store w1 !! l = store w !! l) ∧
  (∀ l, is_Some (store w1 !! l) → store w2 !! l = store w1 !! l) ∧
  Forall2 (same_request (store w1) (store w2)) (sent w w1) (sent w1 w2).
Proof.
  intros w1 w2 Hargs Hro.
  destruct (operation_effect config env tv4 rp conf args w Hargs)
    as [Hf1 Hs1]. fold w1 in Hf1, Hs1.
  assert (is_Some (store w1 !! args)) as Hargs1 by by rewrite Hf1.
  destruct (operation_effect config env tv4 rp conf args w1 Hargs1)
    as [Hf2 Hs2]. fold w2 in Hf2, Hs2.
  rewrite (prepared_frame conf (store w) (store w1) args Hf1 Hargs Hro) in Hs2.
  rewrite (obj_at_frame _ _ args Hf1 Hargs) in Hs2.
  split_and!; [done|done|].
  destruct (prepared tv4 conf (store w) args) as [o|].
  2: { rewrite Hs1, Hs2. constructor. }
  simpl in Hs1, Hs2.
  destruct (tv4 _ requestSchema).
  { rewrite Hs1, Hs2. constructor. }
  destruct (mustache_render _ _) as [s| |].
  2,3: rewrite Hs1, Hs2; constructor.
  destruct Hs1 as (l1 & hd1 & -> & Hl1 & Hhd1 & Hd1 & Hst1 & Hh1).
  destruct Hs2 as (l2 & hd2 & -> & Hl2 & Hhd2 & Hd2 & Hst2 & Hh2).
  constructor; [|constructor].
  assert (l1 ≠ l2) as Hl by (intros ->; congruence).
  assert (hd1 ≠ hd2) as Hhd by (intros ->; congruence).
  unfold same_request. simpl.
  rewrite (obj_at_lookup _ _ _ Hst1), (obj_at_lookup _ _ _ Hst2).
  split_and!; [done|by rewrite !del_headers_final|].
  exists hd1, hd2. rewrite !get_headers_final.
  split_and!; [done|done|done|].
  by rewrite (obj_at_lookup _ _ _ Hh1), (obj_at_lookup _ _ _ Hh2).
Qed.

End Repeated.

(** ** The order of the merge *)

Section Merge.

Context (config : VaultConfig) (env : Env) (tv4 : validator)
        (rp : props → outcome (option Response)).


Lemma has_assign_nil k b : has k (assign [] b) = has k b.
Proof. by rewrite has_assign. Qed.





End Merge.

(** ** The statements on sample inputs *)

(** Decides a closed decidable proposition by evaluation. *)
Ltac by_evaluation :=
  match goal with
  | |- ?P => refine (@bool_decide_unpack P _ _); vm_compute; exact I
  end.

Lemma request_validation_witness :
  ∃ e, tv4_validate
         (VObj (merged_options sample_config
                  (obj_at (store numeric_method_world) 1%positive)))
         requestSchema = Some e ∧
       fst (request sample_config no_env tv4_validate sample_rp 1%positive
              numeric_method_world) = Rejected (SchemaError e) ∧
       sent numeric_method_world
         (snd (request sample_config no_env tv4_validate sample_rp 1%positive
                 numeric_method_world)) = [].
Proof.
  apply (proj1 (request_validation sample_config no_env sample_rp 1%positive
                  numeric_method_world
                  ltac:(by_evaluation))).
  vm_compute. reflexivity.
Defined.

(** C2 as stated fails: the method PATCH is outside the enumeration, and the
    request is sent all the same. *)
Lemma request_sends_patch :
  fst (request sample_config no_env tv4_validate sample_rp 1%positive patch_world)
    = Resolved (VObj [("data", VObj [])]) ∧
  map (λ e, get "method" (snd e))
      (sent patch_world
         (snd (request sample_config no_env tv4_validate sample_rp 1%positive
                 patch_world)))
    = [VStr "PATCH"] ∧
  allowed_method (VStr "PATCH") = false.
Proof. vm_compute. by split_and!. Qed.

Lemma query_expansion_witness :
  get "path"
    (obj_at (store (snd (extendOptions list_items 2%positive abc_options_world)))
       2%positive)
  = VStr "/items?a=1&b=2".
Proof.
  rewrite (proj1 (query_expansion list_items ab_decl ab_schema
                    [("a", VObj []); ("b", VObj [])] abc_body
                    2%positive abc_options_world
                    ltac:(vm_compute; eexists; reflexivity)
                    eq_refl eq_refl eq_refl
                    ltac:(vm_compute; reflexivity))).
  vm_compute. reflexivity.
Defined.

Lemma request_uri_witness :
  secret_request ∈
    sent secret_options_world
      (snd (request sample_config no_env tv4_validate sample_rp
              2%positive secret_options_world)) ∧
  get "uri" (snd secret_request)
    = VStr "http://127.0.0.1:8200/v1/secret/foo/bar".
Proof.
  assert (secret_request ∈
            sent secret_options_world
              (snd (request sample_config no_env tv4_validate sample_rp
                      2%positive secret_options_world))) as He
    by (vm_compute; apply list_elem_of_here).
  split; [exact He|].
  destruct (proj1 (request_uri sample_config no_env tv4_validate sample_rp)
              2%positive secret_options_world secret_request
              ltac:(by_evaluation) He)
    as (s & Hr & ->).
  vm_compute in Hr. by injection Hr as <-.
Defined.

Lemma invalid_body_not_sent_witness :
  fst (operation sample_config no_env tv4_validate sample_rp write_named
         1%positive abc_world)
    = Rejected (SchemaError
                  {| err_code := 302;
                     err_message := "Missing required property: name";
                     err_dataPath := EmptyString;
                     err_schemaPath := "/required/0" |}) ∧
  sent abc_world
    (snd (operation sample_config no_env tv4_validate sample_rp write_named
            1%positive abc_world)) = [].
Proof.
  apply (proj1 (invalid_body_not_sent sample_config no_env tv4_validate
                  sample_rp write_named name_decl 1%positive abc_world
                  ltac:(vm_compute; eexists; reflexivity) eq_refl)
           name_schema).
  - reflexivity.
  - vm_compute. reflexivity.
Defined.





Lemma repeated_calls_witness :
  length (sent secret_world first_call) = 1%nat ∧
  Forall2 (same_request (store first_call) (store second_call))
    (sent secret_world first_call) (sent first_call second_call).
Proof.
  split; [vm_compute; reflexivity|].
  apply (repeated_calls sample_config no_env tv4_validate sample_rp
           read_secret 1%positive secret_world
           ltac:(vm_compute; eexists; reflexivity)
           ltac:(vm_compute; exact I)).
Defined.

Lemma request_aliasing_witness :
  (has "inherit" (obj_at (store own_options_sent) 1%positive) = false ∧
   (∀ e, e ∈ sent own_options_world own_options_sent → fst e = 1%positive) ∧
   length (sent own_options_world own_options_sent) = 1%nat) ∧
  (store patch_sent !! 1%positive = store patch_world !! 1%positive ∧
   (∀ e, e ∈ sent patch_world patch_sent →
         fst e ≠ 1%positive ∧ store patch_world !! fst e = None) ∧
   length (sent patch_world patch_sent) = 1%nat).
Proof.
  split.
  - destruct (proj1 (request_aliasing sample_config no_env tv4_validate
                       sample_rp 1%positive own_options_world
                       ltac:(by_evaluation)
                       ltac:(vm_compute; eexists; reflexivity))
                eq_refl) as (Hh & Hs & _).
    split_and!; [exact Hh|exact Hs|vm_compute; reflexivity].
  - destruct (proj2 (request_aliasing sample_config no_env tv4_validate
                       sample_rp 1%positive patch_world
                       ltac:(by_evaluation)
                       ltac:(vm_compute; eexists; reflexivity))
                eq_refl) as (Hst & Hs).
    split_and!; [exact Hst|exact Hs|vm_compute; reflexivity].
Defined.

(** [defaults] assigns the new values over the object's own, so a headers
    mapping the caller supplies does not reach the transport. *)
Lemma caller_headers_replaced :
  map (λ e, get "headers" (snd e))
      (sent custom_headers_world
         (snd (request sample_config no_env tv4_validate sample_rp 1%positive
                 custom_headers_world)))
  = [VObj [("X-Vault-Token", VStr "abc")]].
Proof. vm_compute. reflexivity. Qed.

(** The query expansion seen from the transport. *)
Lemma list_items_sends_query :
  map (λ e, get "path" (snd e))
      (sent abc_world
         (snd (operation sample_config no_env tv4_validate sample_rp list_items
                 1%positive abc_world)))
  = [VStr "/items?a=1&b=2"].
Proof. vm_compute. reflexivity. Qed.

(** A descriptor that passes the test of [generateFunction] is the one the
    operation is bound to. *)
Lemma generateFunction_given config env tv4 rp confs name conf :
  truthy (conf_method conf) = true → truthy (conf_path conf) = true →
  generateFunction config env tv4 rp confs name (Some conf)
  = operation config env tv4 rp conf.
Proof. intros Hm Hp. unfold generateFunction, select_config. by rewrite Hm, Hp. Qed.

(** * Further properties of the code *)

(** ** [merge] and [defaults] *)

Lemma set_fresh k v a : has k a = false → set k v a = a ++ [(k, v)].
Proof.
  induction a as [|[k0 v0] a IH]; simpl; [done|].
  destruct (decide (k = k0)); [done|]. intros H. by rewrite IH.
Qed.

Lemma assign_disjoint a b :
  NoDup (keys b) → (∀ k, k ∈ keys b → has k a = false) → assign a b = a ++ b.
Proof.
  revert a. induction b as [|[k v] b IH]; intros a Hnd Hd.
  - by rewrite app_nil_r.
  - apply NoDup_cons in Hnd as [Hk Hnd].
    rewrite get_assign_cons, set_fresh by (apply Hd; left).
    rewrite IH; [by rewrite <- app_assoc|done|].
    intros k' Hk'. unfold keys in *.
    destruct (has k' (a ++ [(k, v)])) eqn:Hh; [|done].
    apply has_keys in Hh. unfold keys in Hh. rewrite fmap_app in Hh.
    apply elem_of_app in Hh as [Hh|Hh%list_elem_of_singleton].
    + apply has_keys in Hh. rewrite Hd in Hh; [done|by right].
    + simpl in Hh. by subst.
Qed.

(** Copying a well-formed object gives the same properties in the same
    order. *)
Lemma assign_nil_id o : NoDup (keys o) → assign [] o = o.
Proof. intros Hnd. by rewrite assign_disjoint. Qed.

Lemma filter_fresh_keys (a : list string) k (ks : list string) :
  k ∉ ks →
  filter (λ x, x ∉ a ++ [k]) ks = filter (λ x, x ∉ a) ks.
Proof.
  induction ks as [|x ks IH]; [done|].
  intros [Hx Hk]%not_elem_of_cons.
  destruct (decide (x ∈ a)) as [Hin|Hin].
  - rewrite !filter_cons_False; [by apply IH| |]; try by intros []. 
    intros H. apply H. apply elem_of_app. by left.
  - rewrite !filter_cons_True; [by rewrite IH|done|].
    intros [?|?%list_elem_of_singleton]%elem_of_app; congruence.
Qed.

Lemma keys_assign a b :
  NoDup (keys b) →
  keys (assign a b) = keys a ++ filter (λ k, k ∉ keys a) (keys b).
Proof.
  revert a. induction b as [|[k v] b IH]; intros a Hnd.
  - simpl. by rewrite app_nil_r.
  - apply NoDup_cons in Hnd as [Hk Hnd].
    rewrite get_assign_cons, IH, keys_set by done.
    change (keys ((k, v) :: b)) with (k :: keys b).
    destruct (has k a) eqn:Hh.
    + rewrite filter_cons_False; [done|].
      intros H. apply H. by apply has_keys.
    + rewrite filter_cons_True.
      * rewrite <- app_assoc. simpl. by rewrite filter_fresh_keys.
      * rewrite <- has_keys. congruence.
Qed.

(** X1.  [merge(obj, vals)] on well-formed objects: the result is
    well-formed, a key has the value of [vals] when [vals] has it and the
    value of [obj] otherwise, the keys of [obj] come first in their order
    and the new keys of [vals] follow in theirs, and merging nothing in
    gives back the properties of [obj]. *)
Theorem merge_properties obj vals :
  NoDup (keys obj) → NoDup (keys vals) →
  NoDup (keys (merge obj vals)) ∧
  (∀ k, get k (merge obj vals) = if has k vals then get k vals else get k obj) ∧
  (∀ k, has k (merge obj vals) = has k obj || has k vals) ∧
  keys (merge obj vals) = keys obj ++ filter (λ k, k ∉ keys obj) (keys vals) ∧
  merge obj [] = obj.
Proof.
  intros Ho Hv. unfold merge. rewrite (assign_nil_id obj Ho).
  split_and!.
  - by apply NoDup_assign.
  - intros k. by apply get_assign.
  - intros k. apply has_assign.
  - by apply keys_assign.
  - done.
Qed.

(** X2.  [defaults(obj, vals)] is [Object.assign(obj, vals, obj)]: the last
    source is the target itself, already overwritten, so on a well-formed
    object the values of [vals] win and the result has the properties
    [merge(obj, vals)] has. *)
Theorem defaults_is_merge obj vals :
  NoDup (keys obj) →
  defaults obj vals = merge obj vals ∧
  (NoDup (keys vals) →
   ∀ k, has k vals = true → get k (defaults obj vals) = get k vals).
Proof.
  intros Ho. split.
  - rewrite defaults_overwrites by done. unfold merge.
    by rewrite assign_nil_id.
  - intros Hv k Hk. rewrite defaults_overwrites by done.
    by rewrite get_assign, Hk.
Qed.

(** ** More on the response interpreter *)

Lemma string_prefix_app p z : String.prefix p (p +:+ z) = true.
Proof.
  induction p as [|c p IH]; simpl; [by destruct z|].
  by destruct (ascii_dec c c).
Qed.

Lemma includes_prefix p s : String.prefix p s = true → includes p s = true.
Proof.
  intros H. destruct s as [|c s]; [by destruct p|].
  by rewrite includes_step, H.
Qed.

Lemma includes_app p a z : includes p (a +:+ p +:+ z) = true.
Proof.
  induction a as [|c a IH].
  - change (includes p (p +:+ z) = true). apply includes_prefix, string_prefix_app.
  - change (String c a +:+ p +:+ z) with (String c (a +:+ p +:+ z)).
    by rewrite includes_step, IH, orb_true_r.
Qed.

(** X3.  What [handleVaultResponse] can yield.  It resolves only with the
    body of a response that is present and has status 200 or 204 or a path
    matching [/sys\/health/]: for no other response does the caller get a
    value.  A rejection always carries an [Error] with a message, never the
    body or the response itself. *)
Theorem handleVaultResponse_outcomes (response : option Response) :
  (∀ b, handleVaultResponse response = Resolved b →
        ∃ r, response = Some r ∧ b = body r ∧
             (success_status (statusCode r) ∨
              includes "sys/health" (request_path r) = true)) ∧
  (∀ e, handleVaultResponse response = Rejected e → ∃ m, e = JsError m).
Proof.
  unfold handleVaultResponse. destruct response as [r|].
  - destruct (existsb (Z.eqb (statusCode r)) [200; 204]) eqn:Hs.
    { apply success_status_includes in Hs. split; [|done].
      intros b [= <-]. exists r. auto. }
    destruct (includes "sys/health" (request_path r)) eqn:Hp.
    { split; [|done]. intros b [= <-]. exists r. auto. }
    destruct (hasErrors (body r)) as [[]|]; split; try done.
    + intros e [= <-]. unfold new_Error. by eexists.
    + intros e [= <-]. unfold new_Error. by eexists.
  - split; [done|]. intros e [= <-]. by eexists.
Qed.

(** X4.  The health exemption is a substring test on the request path:
    whatever the status and the body, a response whose path holds
    [sys/health] anywhere resolves with the body. *)
Theorem health_path_resolves (status : Z) (b : value) (before after : string) :
  handleVaultResponse
    (Some {| statusCode := status; body := b;
             request_path := before +:+ "sys/health" +:+ after |})
  = Resolved b.
Proof.
  unfold handleVaultResponse. simpl statusCode. simpl body. simpl request_path.
  rewrite includes_app. by destruct (existsb _ _).
Qed.

Lemma status_rejection r :
  ¬ success_status (statusCode r) →
  includes "sys/health" (request_path r) = false →
  hasErrors (body r) = Some false →
  handleVaultResponse (Some r)
  = Rejected (JsError ("Status " +:+ pretty (statusCode r))).
Proof.
  intros Hn Hp He. unfold handleVaultResponse.
  destruct (existsb _ _) eqn:Hs; [by apply success_status_includes in Hs|].
  by rewrite Hp, He.
Qed.

(** X5.  [errors] that is not an array.  The test [body.errors.length > 0]
    and the message [body.errors[0]] are applied to whatever [errors] is: a
    non-empty string passes the test and the message is its first character
    (stated for ASCII, where a character is a code unit); a value without a
    [length] (an object, a number, [true]) fails it and the message is
    [Status <code>]. *)
Theorem errors_not_an_array (r : Response) :
  ¬ success_status (statusCode r) →
  includes "sys/health" (request_path r) = false →
  (∀ c s, (code c < 128)%N →
          data_get (body r) "errors" = VStr (String c s) →
          handleVaultResponse (Some r) = Rejected (JsError (String c EmptyString))) ∧
  (∀ errors, data_get (body r) "errors" = errors →
             data_get errors "length" = VUndef →
             handleVaultResponse (Some r)
             = Rejected (JsError ("Status " +:+ pretty (statusCode r)))).
Proof.
  intros Hn Hp. split.
  - intros c s _ He. unfold handleVaultResponse.
    destruct (existsb _ _) eqn:Hs; [by apply success_status_includes in Hs|].
    rewrite Hp. unfold hasErrors.
    rewrite (truthy_of_errors (body r)) by (by rewrite He).
    rewrite He. reflexivity.
  - intros errors He Hl. apply status_rejection; [done|done|].
    unfold hasErrors. rewrite He, Hl.
    by destruct (truthy (body r)), (truthy errors).
Qed.

(** ** What [request] hands to the transport *)

Lemma keys_snapshot h l : keys (snapshot h l) = keys (obj_at h l).
Proof.
  unfold snapshot, keys. rewrite map_map. by apply map_ext.
Qed.

Lemma has_snapshot k h l : has k (snapshot h l) = has k (obj_at h l).
Proof.
  unfold snapshot. induction (obj_at h l) as [|[k0 v0] o IH]; simpl; [done|].
  by destruct (decide (k = k0)).
Qed.

(** A template without an opening tag renders as itself. *)
Lemma render_plain view t :
  includes "{{" t = false → render_go view InText t = Rendered t.
Proof.
  induction t as [|c t IH]; [done|].
  rewrite includes_step. intros [Hp Hi]%orb_false_elim.
  specialize (IH Hi).
  destruct t as [|c' t'].
  - simpl. by destruct c as [[] [] [] [] [] [] [] []].
  - rewrite !prefix_cons in Hp.
    assert (render_go view InText (String c (String c' t')) =
            prepend (String c EmptyString) (render_go view InText (String c' t')))
      as ->.
    { destruct (decide (c = "{"%char)) as [->|Hc];
        [destruct (decide (c' = "{"%char)) as [->|Hc']|].
      - rewrite !bool_decide_true in Hp by done. by destruct t'.
      - simpl. by destruct c' as [[] [] [] [] [] [] [] []].
      - simpl. by destruct c as [[] [] [] [] [] [] [] []]. }
    by rewrite IH.
Qed.

Section Transport.

Context (config : VaultConfig) (env : Env) (tv4 : validator)
        (rp : props → outcome (option Response)).

(** X6.  [request] hands at most one request to the transport and appends
    it to what was sent before.  When it does, its outcome is
    [handleVaultResponse] applied to what the transport resolves with, and a
    rejection of the transport is passed on as it is.  When it does not, the
    call does not resolve: it rejects with the validator's error, or fails
    in the templater. *)
Theorem request_outcome l w :
  let rw := request config env tv4 rp l w in
  NoDup (keys (obj_at (store w) l)) →
  wire (snd rw) = wire w ++ sent w (snd rw) ∧
  ((sent w (snd rw) = [] ∧
    (∀ b, fst rw ≠ Resolved b) ∧
    (∀ e, fst rw = Rejected e → ∃ t, e = SchemaError t)) ∨
   (∃ e, sent w (snd rw) = [e] ∧
         fst rw = then_handle (rp (snd e)) ∧
         (∀ x, rp (snd e) = Rejected x → fst rw = Rejected x) ∧
         (∀ r, rp (snd e) = Resolved r → fst rw = handleVaultResponse r))).
Proof.
  intros rw Hnd. unfold rw.
  rewrite (request_run config env tv4 rp l w Hnd).
  destruct (tv4 _ requestSchema) as [t|].
  { simpl. rewrite sent_same by done. rewrite app_nil_r.
    split; [done|]. left. split_and!; [done|done|].
    intros e [= <-]. by eexists. }
  destruct (mustache_render _ _) as [s| |]; simpl.
  - erewrite sent_app by (simpl; reflexivity). split; [done|]. right.
    eexists. split; [done|]. simpl. split_and!; [done| |].
    + by intros x ->.
    + by intros r ->.
  - rewrite sent_same by done. rewrite app_nil_r.
    split; [done|]. left. by split_and!.
  - rewrite sent_same by done. rewrite app_nil_r.
    split; [done|]. left. by split_and!.
Qed.

Lemma request_sent_props l w e :
  NoDup (keys (obj_at (store w) l)) →
  e ∈ sent w (snd (request config env tv4 rp l w)) →
  ∃ uri hd,
    obj_at (store (snd (request config env tv4 rp l w))) (fst e)
      = final_options (merged_options config (obj_at (store w) l)) uri hd ∧
    snd e = snapshot (store (snd (request config env tv4 rp l w))) (fst e).
Proof.
  intros Hnd He.
  destruct (request_cases config env tv4 rp l w Hnd)
    as [[Hs _]|(s & _ & _ & Hs & Hst)]; rewrite Hs in He.
  { by apply elem_of_nil in He. }
  apply list_elem_of_singleton in He as ->. rewrite Hst. simpl.
  rewrite obj_at_insert_eq. by eexists _, _.
Qed.

Lemma has_final_options k o uri hd :
  has k (final_options o uri hd) =
    has k o || bool_decide (k = "uri") || bool_decide (k = "headers").
Proof.
  unfold final_options. rewrite has_assign. simpl.
  destruct (has k o); [done|].
  repeat case_decide; repeat case_bool_decide; simpl; congruence.
Qed.

(** X7.  The shape of every request [request] sends: the [inherit] key
    never reaches the transport, whether the call worked on the caller's
    object or on a copy; [uri] and [headers] are always present; and the
    request has the keys of the object it was sent from, in the same
    order. *)
Theorem sent_request_shape l w e :
  let w' := snd (request config env tv4 rp l w) in
  NoDup (keys (obj_at (store w) l)) →
  e ∈ sent w w' →
  has "inherit" (snd e) = false ∧
  has "uri" (snd e) = true ∧
  has "headers" (snd e) = true ∧
  keys (snd e) = keys (obj_at (store w') (fst e)) ∧
  NoDup (keys (snd e)).
Proof.
  intros w' Hnd He.
  destruct (request_sent_props l w e Hnd He) as (uri & hd & Ho & Hs).
  fold w' in Ho, Hs. rewrite Hs.
  rewrite !has_snapshot, keys_snapshot, Ho, !has_final_options.
  split_and!; try done.
  - unfold merged_options. rewrite has_del; [done|].
    destruct (no_inherit _); [done|apply NoDup_merge].
  - by rewrite orb_true_r.
  - by rewrite orb_true_r.
  - apply NoDup_assign. by apply NoDup_merged_options.
Qed.

(** X8.  A path without a template tag.  When the options pass validation
    and [endpoint/apiVersion + path] holds no [{{], the body plays no part:
    the call cannot fail in the templater, exactly one request is sent, and
    its URI is that text with every [&#x2F;] replaced by a slash (also one
    the caller wrote). *)
Theorem plain_path_uri l w :
  let o' := merged_options config (obj_at (store w) l) in
  let rw := request config env tv4 rp l w in
  NoDup (keys (obj_at (store w) l)) →
  tv4 (VObj o') requestSchema = None →
  includes "{{" (uriTpl config env o') = false →
  ∃ e, sent w (snd rw) = [e] ∧
       get "uri" (snd e) = VStr (replace_all "&#x2F;" "/" (uriTpl config env o')) ∧
       fst rw = then_handle (rp (snd e)).
Proof.
  intros o' rw Hnd Hv Hp. unfold rw.
  rewrite (request_run config env tv4 rp l w Hnd). fold o'. rewrite Hv.
  unfold mustache_render. rewrite (render_plain _ _ Hp). simpl.
  eexists. split; [by apply sent_app|]. split; [|done]. simpl.
  rewrite get_snapshot, obj_at_insert_eq. unfold final_options.
  rewrite !get_assign_cons. simpl. rewrite get_set_ne by done.
  by rewrite get_set_eq.
Qed.

End Transport.

(** ** Escaping and the slash *)

Lemma escaped_slash_step c r :
  replace_go "&#x2F;" "/" O (escape_char c +:+ r) =
    escape_but_slash c +:+ replace_go "&#x2F;" "/" O r.
Proof.
  destruct c as [[] [] [] [] [] [] [] []]; try reflexivity.
  by destruct r.
Qed.

(** X9.  Line 93 undoes the escaping of the slash and of nothing else: on
    an escaped value the replacement gives the value with its slashes as
    they were and the other characters of [mustache.escape] (ampersand,
    less-than, greater-than, the quotes, backtick, equals sign) still as
    entities.  A value without those characters comes through as it is. *)
Theorem slash_unescaped (s : string) :
  replace_all "&#x2F;" "/" (escapeHtml s) = escaped_but_slash s ∧
  (all_chars (λ c, negb (html_special c)) s = true →
   replace_all "&#x2F;" "/" (escapeHtml s) = s).
Proof.
  assert (replace_all "&#x2F;" "/" (escapeHtml s) = escaped_but_slash s) as H.
  { unfold replace_all. induction s as [|c s IH]; [done|].
    simpl escapeHtml. rewrite escaped_slash_step, IH. done. }
  split; [done|]. rewrite H. clear H.
  induction s as [|c s IH]; [done|].
  simpl. intros [Hc Hs]%andb_prop. rewrite (IH Hs).
  destruct c as [[] [] [] [] [] [] [] []]; try done.
Qed.

(** ** Percent-encoding *)

Lemma percent_safe c : all_chars uri_safe (percent c) = true.
Proof. destruct c as [[] [] [] [] [] [] [] []]; reflexivity. Qed.

Lemma all_chars_app p a b :
  all_chars p (a +:+ b) = all_chars p a && all_chars p b.
Proof.
  induction a as [|c a IH]; [done|]. simpl. by rewrite IH, andb_assoc.
Qed.

Lemma encode_bytes_safe s : all_chars uri_safe (encode_bytes s) = true.
Proof.
  induction s as [|c s IH]; [done|]. simpl.
  destruct (uri_unreserved c) eqn:Hc.
  - simpl. unfold uri_safe at 1. by rewrite Hc, IH.
  - by rewrite all_chars_app, percent_safe, IH.
Qed.

Lemma encode_bytes_id s :
  all_chars uri_unreserved s = true → encode_bytes s = s.
Proof.
  induction s as [|c s IH]; [done|]. simpl.
  intros [Hc Hs]%andb_prop. by rewrite Hc, IH.
Qed.

(** X10.  [encodeURIComponent] as [extendOptions] uses it: the encoded
    value is made of unreserved characters and percent signs only, so it
    holds no ampersand, equals sign, question mark, hash, slash, brace or
    space; a value made of unreserved characters is left as it is; and
    every parameter [extendOptions] collects from a body is a declared key
    as it is written (keys are not encoded), an equals sign, and such an
    encoded value. *)
Theorem encoded_query_value (v : value) :
  all_chars uri_safe (encodeURIComponent v) = true ∧
  (all_chars uri_unreserved (js_string v) = true →
   encodeURIComponent v = js_string v) ∧
  (∀ c, c ∈ ["&"; "="; "?"; "#"; "/"; "{"; "}"; " "]%char → uri_safe c = false) ∧
  (∀ body ks params p,
      collect (VObj body) ks [] = Some params → p ∈ params →
      ∃ k enc, k ∈ ks ∧ p = k +:+ "=" +:+ enc ∧ all_chars uri_safe enc = true).
Proof.
  split_and!.
  - apply encode_bytes_safe.
  - apply encode_bytes_id.
  - intros c Hc. repeat (apply elem_of_cons in Hc as [->|Hc]; [done|]).
    by apply elem_of_nil in Hc.
  - intros body ks params p Hc Hp. rewrite collect_pairs in Hc.
    injection Hc as <-. simpl in Hp. unfold query_pairs in Hp.
    apply list_elem_of_fmap in Hp as (k & -> & [_ Hk]%list_elem_of_filter).
    exists k, (encodeURIComponent (get k body)).
    split_and!; [done|done|apply encode_bytes_safe].
Qed.

(** ** The helpers [help], [write], [read], [list] and [delete] *)

Lemma get_final_options k o uri hd :
  k ≠ "uri" → k ≠ "headers" → get k (final_options o uri hd) = get k o.
Proof.
  intros Hu Hh. unfold final_options. rewrite !get_assign_cons. simpl.
  by rewrite !get_set_ne.
Qed.

Ltac by_nodup :=
  simpl; repeat (apply NoDup_cons_2; [set_solver|]); apply NoDup_nil_2.

Section Helpers.

Context (config : VaultConfig) (env : Env) (tv4 : validator)
        (rp : props → outcome (option Response)).

Lemma get_merged_own k o :
  NoDup (keys o) → k ≠ "inherit" → has k o = true →
  get k (merged_options config o) = get k o.
Proof.
  intros Hnd Hk Hh. unfold merged_options. rewrite get_del_ne by done.
  destruct (no_inherit o); [done|].
  unfold merge. by rewrite get_assign, Hh.
Qed.

(** [request] on a new object holding [merge(o, B)]. *)
Lemma request_on_merged (o B : props) w :
  let l := fresh_loc (store w) in
  let w1 := {| store := <[l := merge o B]> (store w); wire := wire w |} in
  let w' := snd (request config env tv4 rp l w1) in
  NoDup (keys B) →
  (∀ e k, e ∈ sent w w' → has k B = true →
          k ≠ "inherit" → k ≠ "uri" → k ≠ "headers" →
          get k (snd e) = deref (store w') (get k B)) ∧
  (∀ l0, is_Some (store w !! l0) → store w' !! l0 = store w !! l0) ∧
  (length (sent w w') ≤ 1)%nat.
Proof.
  intros l w1 w' HB.
  assert (obj_at (store w1) l = merge o B) as Ho by apply obj_at_insert_eq.
  assert (NoDup (keys (obj_at (store w1) l))) as Hnd
    by (rewrite Ho; apply NoDup_merge).
  assert (is_Some (store w1 !! l)) as Hl
    by (simpl; rewrite lookup_insert_eq; by eexists).
  assert (sent w w' = sent w1 w') as Hsent by by apply sent_same_wire.
  split_and!.
  - intros e k He Hk Hi Hu Hh. rewrite Hsent in He.
    destruct (request_sent_props config env tv4 rp l w1 e Hnd He)
      as (uri & hd & Hobj & ->).
    fold w' in Hobj |- *.
    rewrite get_snapshot, Hobj, get_final_options by done.
    rewrite Ho, get_merged_own; [|apply NoDup_merge|done|].
    + unfold merge. by rewrite get_assign, Hk.
    + unfold merge. by rewrite has_assign, Hk, orb_true_r.
  - intros l0 Hl0.
    assert (l0 ≠ l) as Hne by by apply fresh_loc_ne.
    destruct (request_effect config env tv4 rp l w1 Hnd Hl) as [Hframe _].
    fold w' in Hframe. rewrite Hframe; [|simpl|done].
    + simpl. by apply lookup_insert_ne.
    + by rewrite lookup_insert_ne.
  - rewrite Hsent.
    destruct (request_cases config env tv4 rp l w1 Hnd)
      as [[Hs _]|(s & _ & _ & Hs & _)]; fold w' in Hs; rewrite Hs; simpl; lia.
Qed.

Lemma helper_run (B : props) options w method path :
  NoDup (keys B) → has "method" B = true → has "path" B = true →
  get "method" B = VStr method → get "path" B = VStr path →
  helper_sends
    (h ← the_heap; l ← alloc (merge (own_props h options) B);
     request config env tv4 rp l)
    w method path.
Proof.
  intros HB Hm Hp Hgm Hgp.
  destruct (request_on_merged (own_props (store w) options) B w HB)
    as (Hfield & Hframe & Hlen).
  unfold helper_sends. split_and!; [|exact Hframe|exact Hlen].
  intros e He. split.
  - rewrite (Hfield e "method" He) by done. by rewrite Hgm.
  - rewrite (Hfield e "path" He) by done. by rewrite Hgp.
Qed.

(** X11.  The helpers.  Whatever options the caller passes (also ones that
    name a method or a path of their own), a request sent by [help] is a GET
    of [/<path>?help=1], by [read] a GET, by [list] a LIST, by [delete] a
    DELETE and by [write] a PUT of [/<path>], and the body of [write] is the
    data passed.  Each sends at most one request and writes to no object
    that existed before the call: the caller's options are copied, never
    altered, even when they say [inherit: false]. *)
Theorem helpers_send (path options data : value) (w : world) :
  helper_sends (client_help config env tv4 rp path options) w
    "GET" ("/" +:+ js_string path +:+ "?help=1") ∧
  helper_sends (client_read config env tv4 rp path options) w
    "GET" ("/" +:+ js_string path) ∧
  helper_sends (client_list config env tv4 rp path options) w
    "LIST" ("/" +:+ js_string path) ∧
  helper_sends (client_delete config env tv4 rp path options) w
    "DELETE" ("/" +:+ js_string path) ∧
  helper_sends (client_write config env tv4 rp path data options) w
    "PUT" ("/" +:+ js_string path) ∧
  (allocated (store w) data →
   ∀ e, e ∈ sent w (snd (client_write config env tv4 rp path data options w)) →
        get "json" (snd e) = deref (store w) data).
Proof.
  split_and!.
  - by apply helper_run; [by_nodup|..].
  - by apply helper_run; [by_nodup|..].
  - by apply helper_run; [by_nodup|..].
  - by apply helper_run; [by_nodup|..].
  - by apply helper_run; [by_nodup|..].
  - intros Hd e He.
    set (B := [ ("path", VStr (slash path)); ("json", data);
                ("method", VStr "PUT") ]).
    assert (NoDup (keys B)) as HB by by_nodup.
    destruct (request_on_merged (own_props (store w) options) B w HB)
      as (Hfield & Hframe & _).
    rewrite (Hfield e "json" He) by done. simpl.
    destruct data as [| | | | | | |d]; try done.
    simpl in Hd |- *. unfold obj_at.
    by rewrite (Hframe d Hd).
Qed.

End Helpers.

(** ** Generated operations: failures and the caller's objects *)


Section Failures.

Context (config : VaultConfig) (env : Env) (tv4 : validator)
        (rp : props → outcome (option Response)).

(** The view the URI template is rendered against in a generated
    operation is the caller's argument object. *)
Lemma operation_view conf args w o :
  let h := store w in
  let l1 := fresh_loc h in
  let h1 := <[l1 := o]> h in
  let o' := merged_options config o in
  is_Some (h !! args) →
  prepared tv4 conf h args = Some o →
  deref (<[target_loc h1 l1 := o']> h1) (get "json" o') = VObj (obj_at h args).
Proof.
  intros h l1 h1 o' Hargs Hp.
  assert (NoDup (keys o)) as Hnd by by eapply NoDup_prepared.
  assert (args ≠ l1) as Hne by by apply fresh_loc_ne.
  assert (target_loc h1 l1 ≠ args) as Hta.
  { unfold target_loc. destruct (no_inherit _); [done|].
    intros Heq. apply (fresh_loc_ne h1 args); [|done].
    unfold h1. by rewrite lookup_insert_ne. }
  unfold o'.
  rewrite (get_json_merged config o args Hnd (get_json_prepared tv4 _ _ _ _ Hp)).
  simpl. rewrite obj_at_insert_ne by done. unfold h1.
  by rewrite obj_at_insert_ne.
Qed.

(** The outcome of a generated operation that gets as far as [request]. *)
Lemma operation_outcome conf args w o :
  let h := store w in
  let o' := merged_options config o in
  let rw := operation config env tv4 rp conf args w in
  is_Some (h !! args) →
  prepared tv4 conf h args = Some o →
  match tv4 (VObj o') requestSchema with
  | Some e => fst rw = Rejected (SchemaError e) ∧ sent w (snd rw) = []
  | None =>
      match mustache_render (uriTpl config env o') (VObj (obj_at h args)) with
      | Unclosed =>
          fst rw = (match conf_schema conf with
                    | None => Thrown TemplateError
                    | Some _ => Rejected TemplateError
                    end) ∧ sent w (snd rw) = []
      | Unsupported => fst rw = Beyond ∧ sent w (snd rw) = []
      | Rendered s =>
          ∃ e, sent w (snd rw) = [e] ∧
               fst rw = (match conf_schema conf with
                         | None => then_handle (rp (snd e))
                         | Some _ => caught (then_handle (rp (snd e)))
                         end)
      end
  end.
Proof.
  intros h o' rw Hargs Hp.
  set (l1 := fresh_loc h).
  set (wx := {| store := <[l1 := o]> h; wire := wire w |}).
  assert (rw = match conf_schema conf with
               | None => request config env tv4 rp l1 wx
               | Some _ => (caught (fst (request config env tv4 rp l1 wx)),
                            snd (request config env tv4 rp l1 wx))
               end) as Hrw.
  { unfold rw. rewrite (operation_run config env tv4 rp conf args w Hargs).
    fold h l1. unfold prepared in Hp. fold h in Hp.
    destruct (conf_schema conf) as [decl|]; [|by injection Hp as <-].
    destruct (check tv4 _ (req decl)); [done|].
    destruct (check tv4 _ (query decl)); [done|].
    by rewrite Hp. }
  assert (obj_at (store wx) l1 = o) as Ho by apply obj_at_insert_eq.
  assert (NoDup (keys (obj_at (store wx) l1))) as Hnd.
  { rewrite Ho. by eapply NoDup_prepared. }
  pose proof (request_run config env tv4 rp l1 wx Hnd) as Hrun.
  simpl in Hrun. rewrite obj_at_insert_eq in Hrun. fold o' in Hrun.
  pose proof (operation_view conf args w o Hargs Hp) as Hview.
  simpl in Hview. fold h l1 o' in Hview. rewrite Hview in Hrun.
  assert (∀ w2, sent w w2 = sent wx w2) as Hsent
    by (intros w2; by apply sent_same_wire).
  destruct (tv4 (VObj o') requestSchema) as [e|].
  { rewrite Hrw, Hrun. destruct (conf_schema conf); simpl;
      (split; [done|by rewrite Hsent, sent_same]). }
  destruct (mustache_render _ _) as [s| |].
  - rewrite Hrw, Hrun.
    eexists. destruct (conf_schema conf); simpl;
      (split; [rewrite Hsent; by apply sent_app|done]).
  - rewrite Hrw, Hrun. destruct (conf_schema conf); simpl;
      (split; [done|by rewrite Hsent, sent_same]).
  - rewrite Hrw, Hrun. destruct (conf_schema conf); simpl;
      (split; [done|by rewrite Hsent, sent_same]).
Qed.


(** X13.  Failures on the query schema.  When the request-body schema
    accepts the argument object (or is absent) and the validator rejects it
    against the query schema, the operation rejects with the validator's
    error; when the query schema is accepted but has no [properties], the
    operation rejects with the TypeError of [Object.keys].  In both cases
    nothing reaches the transport. *)
Theorem query_schema_failures conf decl schema args w :
  let h := store w in
  let doc := VObj (obj_at h args) in
  let rw := operation config env tv4 rp conf args w in
  is_Some (h !! args) →
  conf_schema conf = Some decl →
  check tv4 doc (req decl) = None →
  query decl = Some schema →
  (∀ e, tv4 doc schema = Some e →
        fst rw = Rejected (SchemaError e) ∧ sent w (snd rw) = []) ∧
  (tv4 doc schema = None →
   get "properties" schema = VUndef ∨ get "properties" schema = VNull →
   fst rw = Rejected TypeError ∧ sent w (snd rw) = []).
Proof.
  intros h doc rw Hargs Hs Hreq Hq. unfold rw.
  rewrite (operation_run config env tv4 rp conf args w Hargs), Hs.
  fold h doc. rewrite Hreq, Hq. simpl. split.
  - intros e ->. split; [done|]. by apply sent_same.
  - intros -> Hprops.
    assert (extended conf doc (operation_options conf h args) = None) as ->.
    { unfold extended, query_params. rewrite Hs, Hq.
      by destruct Hprops as [-> | ->]. }
    split; [done|]. by apply sent_same.
Qed.

(** X14.  A generated operation and the caller's objects.  The options
    object aliases the argument object as [json], yet no object that existed
    before the call is written to: the argument object, its
    [requestOptions] and everything else in the store are as they were.
    At most one request is sent, from an object made during the call, and
    its body is the argument object, with all its keys. *)
Theorem operation_keeps_arguments conf args w :
  let h := store w in
  let w' := snd (operation config env tv4 rp conf args w) in
  is_Some (h !! args) →
  (∀ l0, is_Some (h !! l0) → store w' !! l0 = h !! l0) ∧
  (length (sent w w') ≤ 1)%nat ∧
  (∀ e, e ∈ sent w w' →
        h !! fst e = None ∧ get "json" (snd e) = VObj (obj_at h args)).
Proof.
  intros h w' Hargs.
  destruct (operation_effect config env tv4 rp conf args w Hargs)
    as [Hframe Hsent].
  fold h w' in Hframe, Hsent.
  split; [exact Hframe|].
  destruct (prepared tv4 conf h args) as [o|] eqn:Hp.
  2: { rewrite Hsent. split; [simpl; lia|]. by intros e ?%elem_of_nil. }
  simpl in Hsent.
  destruct (tv4 _ requestSchema).
  { rewrite Hsent. split; [simpl; lia|]. by intros e ?%elem_of_nil. }
  destruct (mustache_render _ _) as [s| |].
  2,3: rewrite Hsent; (split; [simpl; lia|]); by intros e ?%elem_of_nil.
  destruct Hsent as (l' & hd & Hs & Hl' & Hhd & Hd & Hst & Hh).
  rewrite Hs. split; [simpl; lia|].
  intros e ->%list_elem_of_singleton. simpl. split; [done|].
  rewrite get_snapshot, (obj_at_lookup _ _ _ Hst).
  rewrite get_final_options by done.
  assert (NoDup (keys o)) as Hnd by by eapply NoDup_prepared.
  rewrite (get_json_merged config o args Hnd (get_json_prepared tv4 _ _ _ _ Hp)).
  simpl. unfold obj_at. by rewrite (Hframe args Hargs).
Qed.

End Failures.

(** ** Edge cases of the query expansion, the client and the dispatch *)

Lemma append_empty s : s +:+ EmptyString = s.
Proof.
  induction s as [|c s IH]; [done|].
  change (String c (s +:+ EmptyString) = String c s). by rewrite IH.
Qed.

Lemma query_pairs_none ks body :
  (∀ k, k ∈ ks → k ∉ keys body) → query_pairs ks body = [].
Proof.
  intros Hk. unfold query_pairs.
  induction ks as [|k ks IH]; [done|].
  rewrite filter_cons_False by (apply Hk; left).
  apply IH. intros k' Hk'. apply Hk. by right.
Qed.

(** X15.  [extendOptions] with nothing to add: when the body has none of
    the keys the query schema declares and the path is a string, the
    options object and everything else are left exactly as they were (no
    question mark is appended). *)
Theorem query_without_match conf decl schema ps body p l w :
  let o := obj_at (store w) l in
  is_Some (store w !! l) →
  conf_schema conf = Some decl →
  query decl = Some schema →
  get "properties" schema = VObj ps →
  deref (store w) (get "json" o) = VObj body →
  Forall (λ k, k ∉ keys body) (keys ps) →
  get "path" o = VStr p →
  extendOptions conf l w = (Resolved l, w).
Proof.
  intros o Hl Hs Hq Hp Hjson Hk Hpath.
  rewrite (extendOptions_run conf l w Hl). fold o. rewrite Hjson.
  unfold extended, query_params. rewrite Hs, Hq, Hp. simpl.
  rewrite collect_pairs, (query_pairs_none _ _ (proj1 (Forall_forall _ _) Hk)).
  simpl.
  rewrite Hpath. simpl. rewrite append_empty, <- Hpath.
  rewrite set_same by (apply has_of_get; by rewrite Hpath).
  unfold o. rewrite obj_at_insert_id by done. by destruct w.
Qed.

(** X16.  The client's settings.  [endpoint] and [apiVersion] are never
    falsy: a falsy configured value (absent, empty, zero) gives way to the
    default, and for the endpoint to [VAULT_ADDR] first.  The token is
    [config.token || VAULT_TOKEN]: a falsy configured token gives way to the
    environment's, while a configured token that is truthy but not a string
    wins over it and then no token header is sent at all. *)
Theorem client_settings (config : VaultConfig) (env : Env) :
  truthy (endpoint (client config env)) = true ∧
  truthy (apiVersion (client config env)) = true ∧
  (truthy (cfg_endpoint config) = false →
   endpoint (client config env) =
     if truthy (VAULT_ADDR env) then VAULT_ADDR env
     else VStr "http://127.0.0.1:8200") ∧
  (truthy (cfg_apiVersion config) = false →
   apiVersion (client config env) = VStr "v1") ∧
  (truthy (cfg_token config) = false →
   ∀ t, VAULT_TOKEN env = VStr t → t ≠ EmptyString →
        token_headers config env = [("X-Vault-Token", VStr t)]) ∧
  (truthy (cfg_token config) = true → is_string (cfg_token config) = false →
   token_headers config env = []).
Proof.
  unfold token_headers, has_token, client, mkClient, js_or. simpl.
  split_and!.
  - destruct (truthy (cfg_endpoint config)) eqn:H1; simpl; rewrite ?H1; [done|].
    destruct (truthy (VAULT_ADDR env)) eqn:H2; simpl; by rewrite ?H2.
  - by destruct (truthy (cfg_apiVersion config)) eqn:H1.
  - intros ->. simpl. by destruct (truthy (VAULT_ADDR env)) eqn:H2; rewrite ?H2.
  - by intros ->.
  - intros -> t -> Ht. by destruct t.
  - intros -> Hs. by rewrite Hs.
Qed.

Lemma find_name {A} (confs : list (string * A)) name d :
  NoDup (confs.*1) → (name, d) ∈ confs →
  List.find (λ e, bool_decide (fst e = name)) confs = Some (name, d).
Proof.
  induction confs as [|[k x] confs IH]; simpl.
  - by intros _ ?%elem_of_nil.
  - intros [Hk Hnd]%NoDup_cons [Heq|Hin]%elem_of_cons.
    + injection Heq as <- <-. by rewrite bool_decide_true.
    + rewrite bool_decide_false; [by apply IH|].
      intros ->. apply Hk. apply list_elem_of_fmap. by exists (name, d).
Qed.

Lemma find_no_name {A} (confs : list (string * A)) name :
  name ∉ confs.*1 →
  List.find (λ e, bool_decide (fst e = name)) confs = None.
Proof.
  induction confs as [|[k x] confs IH]; simpl; [done|].
  intros [Hk Hin]%not_elem_of_cons.
  rewrite bool_decide_false by done. by apply IH.
Qed.

(** X17.  Which descriptor [generateFunction] binds.  A descriptor passed
    along is used only when it is present with a truthy method and a truthy
    path; otherwise (absent, or with an empty or missing method or path) the
    entry of the command table under that name is used; and when the table
    has none, the bound operation raises a TypeError when it is called,
    before anything is allocated or sent. *)
Theorem generateFunction_binding config env tv4 rp
    (confs : list (string * Descriptor)) (name : string)
    (conf : option Descriptor) :
  let usable :=
    match conf with
    | Some c => truthy (conf_method c) && truthy (conf_path c)
    | None => false
    end in
  (∀ c, conf = Some c → usable = true →
        generateFunction config env tv4 rp confs name conf
        = operation config env tv4 rp c) ∧
  (∀ d, usable = false → NoDup (confs.*1) → (name, d) ∈ confs →
        generateFunction config env tv4 rp confs name conf
        = operation config env tv4 rp d) ∧
  (usable = false → name ∉ confs.*1 →
   ∀ args w, generateFunction config env tv4 rp confs name conf args w
             = (Thrown TypeError, w)).
Proof.
  intros usable. unfold generateFunction, select_config. split_and!.
  - intros c -> Hu. unfold usable in Hu. by rewrite Hu.
  - intros d Hu Hnd Hin. rewrite (find_name confs name d Hnd Hin). simpl.
    unfold usable in Hu. destruct conf as [c|]; [|done]. by rewrite Hu.
  - intros Hu Hn args w. rewrite (find_no_name confs name Hn). simpl.
    unfold usable in Hu. destruct conf as [c|]; [|done]. by rewrite Hu.
Qed.

(** ** The query string in the URI *)

Section QueryUri.

Context (config : VaultConfig) (env : Env) (tv4 : validator)
        (rp : props → outcome (option Response)).

(** X18.  From the query schema to the URI.  For a descriptor with a string
    path [p] and a query schema, when both validations and the structural
    check pass and the resulting text holds no template tag, the operation
    sends exactly one request; its path is [p] followed by the query string
    built from the argument object, and its URI is
    [endpoint/apiVersion + p + query] with every [&#x2F;] replaced by a
    slash. *)
Theorem query_reaches_uri conf decl schema ps p args w :
  let h := store w in
  let doc := VObj (obj_at h args) in
  let w' := snd (operation config env tv4 rp conf args w) in
  let path := p +:+ query_string (query_pairs (keys ps) (obj_at h args)) in
  let text := js_string (endpoint (client config env)) +:+ "/" +:+
              js_string (apiVersion (client config env)) +:+ path in
  is_Some (h !! args) →
  conf_schema conf = Some decl →
  check tv4 doc (req decl) = None →
  query decl = Some schema →
  tv4 doc schema = None →
  get "properties" schema = VObj ps →
  conf_path conf = VStr p →
  tv4 (VObj (merged_options config
               (set "path" (VStr path) (operation_options conf h args))))
    requestSchema = None →
  includes "{{" text = false →
  ∃ e, sent w w' = [e] ∧
       get "path" (snd e) = VStr path ∧
       get "uri" (snd e) = VStr (replace_all "&#x2F;" "/" text).
Proof.
  intros h doc w' path text Hargs Hs Hreq Hq Hv Hp Hpath Hvalid Htext.
  set (o1 := operation_options conf h args) in *.
  assert (get "path" o1 = VStr p ∧ has "path" o1 = true) as [Hg1 Hh1].
  { destruct (operation_options_own conf h args "path") as [Hg Hh]; [set_solver|].
    split; [|done]. unfold o1. rewrite Hg. simpl. done. }
  assert (prepared tv4 conf h args = Some (set "path" (VStr path) o1)) as Hprep.
  { unfold prepared. fold h doc o1. rewrite Hs, Hreq, Hq. simpl. rewrite Hv.
    unfold extended, query_params. rewrite Hs, Hq, Hp. unfold doc.
    by rewrite collect_pairs, Hg1. }
  set (o := set "path" (VStr path) o1) in *.
  assert (NoDup (keys o)) as Hnd by by eapply NoDup_prepared.
  assert (get "path" (merged_options config o) = VStr path) as Hgp.
  { rewrite get_merged_own; [apply get_set_eq|done|done|].
    unfold o. rewrite has_set. by rewrite bool_decide_true. }
  assert (uriTpl config env (merged_options config o) = text) as Htpl.
  { unfold uriTpl. by rewrite Hgp. }
  destruct (operation_effect config env tv4 rp conf args w Hargs) as [_ Hsent].
  fold h w' in Hsent. rewrite Hprep in Hsent. simpl in Hsent.
  rewrite Hvalid, Htpl in Hsent.
  unfold mustache_render in Hsent. rewrite (render_plain _ _ Htext) in Hsent.
  destruct Hsent as (l' & hd & Hsn & _ & _ & _ & Hst & _).
  eexists. split; [exact Hsn|]. simpl.
  rewrite !get_snapshot, (obj_at_lookup _ _ _ Hst).
  rewrite get_final_options, Hgp by done. split; [done|].
  unfold final_options. rewrite !get_assign_cons. simpl.
  rewrite get_set_ne by done. by rewrite get_set_eq.
Qed.

End QueryUri.

(** ** A variable in the path *)




















Section PathVariable.

Context (config : VaultConfig) (env : Env) (tv4 : validator)
        (rp : props → outcome (option Response)).


End PathVariable.

(** ** The outcome of a generated operation and the frame of [request] *)

Lemma handleVaultResponse_caught response :
  caught (handleVaultResponse response) = handleVaultResponse response.
Proof.
  unfold handleVaultResponse. destruct response as [r|]; [|done].
  destruct (existsb _ _); [done|].
  destruct (includes _ _); [done|].
  by destruct (hasErrors (body r)) as [[]|].
Qed.

Section Outcome.

Context (config : VaultConfig) (env : Env) (tv4 : validator)
        (rp : props → outcome (option Response)).

(** X20.  The outcome of a generated operation.  Either nothing is sent and
    the operation does not resolve, or exactly one request is sent and the
    outcome is decided by the transport's answer alone: what the transport
    resolves with goes through [handleVaultResponse], and a rejection of the
    transport is the operation's rejection. *)
Theorem operation_result conf args w :
  let rw := operation config env tv4 rp conf args w in
  is_Some (store w !! args) →
  (sent w (snd rw) = [] ∧ ∀ b, fst rw ≠ Resolved b) ∨
  (∃ e, sent w (snd rw) = [e] ∧
        (∀ r, rp (snd e) = Resolved r → fst rw = handleVaultResponse r) ∧
        (∀ x, rp (snd e) = Rejected x → fst rw = Rejected x)).
Proof.
  intros rw Hargs.
  destruct (prepared tv4 conf (store w) args) as [o|] eqn:Hp.
  - pose proof (operation_outcome config env tv4 rp conf args w o Hargs Hp) as Ho.
    simpl in Ho. fold rw in Ho.
    destruct (tv4 _ requestSchema).
    { destruct Ho as [Hf Hs]. left. split; [done|]. intros b. by rewrite Hf. }
    destruct (mustache_render _ _) as [s| |].
    + destruct Ho as (e & Hs & Hf). right. exists e. split; [done|].
      rewrite Hf. split.
      * intros r ->. simpl.
        destruct (conf_schema conf); [apply handleVaultResponse_caught|done].
      * intros x ->. by destruct (conf_schema conf).
    + destruct Ho as [Hf Hs]. left. split; [done|]. intros b. rewrite Hf.
      by destruct (conf_schema conf).
    + destruct Ho as [Hf Hs]. left. split; [done|]. intros b. by rewrite Hf.
  - left. unfold rw. unfold prepared in Hp.
    rewrite (operation_run config env tv4 rp conf args w Hargs).
    destruct (conf_schema conf) as [decl|]; [|done].
    destruct (check tv4 _ (req decl)).
    { split; [by apply sent_same|done]. }
    destruct (check tv4 _ (query decl)).
    { split; [by apply sent_same|done]. }
    rewrite Hp. split; [by apply sent_same|done].
Qed.

(** X21.  What [request] leaves alone.  No object other than the options
    object passed is written to: the body object that [json] refers to and
    a headers object the caller supplied are as they were (the token header
    goes to a new headers object).  Unless [inherit] is [false], the
    options object passed is left as it was too. *)
Theorem request_frame l w :
  let o := obj_at (store w) l in
  let w' := snd (request config env tv4 rp l w) in
  NoDup (keys o) →
  is_Some (store w !! l) →
  ∀ l0, is_Some (store w !! l0) →
        l0 ≠ l ∨ no_inherit o = false →
        store w' !! l0 = store w !! l0.
Proof.
  intros o w' Hnd Hl l0 Hl0 Hcase.
  assert (target_loc (store w) l ≠ l0) as Hne.
  { destruct (target_loc_fresh_or_same l (store w) Hl)
      as [[Hi Ht]|(_ & _ & Hnone)].
    - fold o in Hi. destruct Hcase as [?|Hf]; congruence.
    - intros Heq. rewrite Heq in Hnone. rewrite Hnone in Hl0. by destruct Hl0. }
  pose proof (request_cases config env tv4 rp l w Hnd) as Hc. simpl in Hc.
  fold w' o in Hc.
  set (l' := target_loc (store w) l) in *.
  set (h1 := <[l' := merged_options config o]> (store w)) in *.
  assert (fresh_loc h1 ≠ l0) as Hfresh.
  { intros Heq. apply (fresh_loc_ne h1 l0); [|done].
    unfold h1. by rewrite lookup_insert_ne. }
  destruct Hc as [[_ Hst]|(s & _ & _ & _ & Hst)]; rewrite Hst.
  - unfold h1. by rewrite lookup_insert_ne.
  - rewrite !lookup_insert_ne by done. unfold h1. by rewrite lookup_insert_ne.
Qed.

End Outcome.

(** ** The further properties on sample inputs *)

Lemma merge_properties_witness :
  keys (merge abc_body [("b", VNum 9); ("z", VNull)]) = ["a"; "b"; "c"; "z"] ∧
  get "b" (merge abc_body [("b", VNum 9); ("z", VNull)]) = VNum 9.
Proof.
  destruct (merge_properties abc_body [("b", VNum 9); ("z", VNull)]
              ltac:(by_evaluation) ltac:(by_evaluation))
    as (_ & Hg & _ & Hk & _).
  split; [rewrite Hk|rewrite Hg]; vm_compute; reflexivity.
Defined.

Lemma defaults_is_merge_witness :
  defaults abc_body [("b", VNum 9)] = merge abc_body [("b", VNum 9)] ∧
  get "b" (defaults abc_body [("b", VNum 9)]) = VNum 9.
Proof.
  destruct (defaults_is_merge abc_body [("b", VNum 9)] ltac:(by_evaluation))
    as [Hm Hg].
  split; [exact Hm|]. apply (Hg ltac:(by_evaluation) "b" eq_refl).
Defined.

Lemma handleVaultResponse_outcomes_witness :
  ∃ r, Some response_500_health = Some r ∧ VObj [] = body r ∧
       (success_status (statusCode r) ∨
        includes "sys/health" (request_path r) = true).
Proof.
  apply (proj1 (handleVaultResponse_outcomes (Some response_500_health)) (VObj [])).
  reflexivity.
Defined.

Lemma errors_not_an_array_witness :
  handleVaultResponse (Some response_403_text) = Rejected (JsError "p") ∧
  handleVaultResponse (Some response_500_count) = Rejected (JsError "Status 500").
Proof.
  split.
  - apply (proj1 (errors_not_an_array response_403_text
                    ltac:(unfold success_status; simpl; lia) eq_refl)
             "p"%char "ermission denied").
    + vm_compute. reflexivity.
    + reflexivity.
  - apply (proj2 (errors_not_an_array response_500_count
                    ltac:(unfold success_status; simpl; lia) eq_refl)
             (VNum 3)); reflexivity.
Defined.

Lemma request_outcome_witness :
  wire patch_sent = wire patch_world ++ sent patch_world patch_sent.
Proof.
  exact (proj1 (request_outcome sample_config no_env tv4_validate sample_rp
                  1%positive patch_world ltac:(by_evaluation))).
Defined.

Lemma sent_request_shape_witness :
  own_request ∈ sent own_options_world own_options_sent ∧
  has "inherit" (snd own_request) = false ∧
  has "uri" (snd own_request) = true ∧
  has "headers" (snd own_request) = true.
Proof.
  assert (own_request ∈ sent own_options_world own_options_sent) as He
    by (vm_compute; apply list_elem_of_here).
  split; [exact He|].
  destruct (sent_request_shape sample_config no_env tv4_validate sample_rp
              1%positive own_options_world own_request
              ltac:(by_evaluation) He) as (Hi & Hu & Hh & _).
  by split_and!.
Defined.

Lemma plain_path_uri_witness :
  ∃ e, sent patch_world patch_sent = [e] ∧
       get "uri" (snd e) = VStr "http://127.0.0.1:8200/v1/sys/seal".
Proof.
  destruct (plain_path_uri sample_config no_env tv4_validate sample_rp
              1%positive patch_world
              ltac:(by_evaluation) ltac:(vm_compute; reflexivity)
              ltac:(vm_compute; reflexivity)) as (e & Hs & Hu & _).
  exists e. split; [exact Hs|]. rewrite Hu. vm_compute. reflexivity.
Defined.

Lemma slash_unescaped_witness :
  replace_all "&#x2F;" "/" (escapeHtml "foo/bar") = "foo/bar".
Proof. apply (proj2 (slash_unescaped "foo/bar")). reflexivity. Defined.

Lemma encoded_query_value_witness :
  encodeURIComponent (VStr "abc") = "abc".
Proof.
  apply (proj1 (proj2 (encoded_query_value (VStr "abc")))). reflexivity.
Defined.

Lemma helpers_send_witness :
  helper_sends
    (client_read sample_config no_env tv4_validate sample_rp
       (VStr "secret/foo") post_options)
    secret_world "GET" "/secret/foo" ∧
  write_request ∈
    sent secret_world
      (snd (client_write sample_config no_env tv4_validate sample_rp
              (VStr "secret/foo") (VRef 1%positive) VUndef secret_world)) ∧
  get "json" (snd write_request) = VObj [("name", VStr "foo/bar")].
Proof.
  assert (write_request ∈
            sent secret_world
              (snd (client_write sample_config no_env tv4_validate sample_rp
                      (VStr "secret/foo") (VRef 1%positive) VUndef secret_world)))
    as He by (vm_compute; apply list_elem_of_here).
  split_and!.
  - apply (helpers_send sample_config no_env tv4_validate sample_rp
             (VStr "secret/foo") post_options VUndef secret_world).
  - exact He.
  - apply (proj2 (proj2 (proj2 (proj2 (proj2
             (helpers_send sample_config no_env tv4_validate sample_rp
                (VStr "secret/foo") VUndef (VRef 1%positive) secret_world)))))
             ltac:(vm_compute; eexists; reflexivity) write_request He).
Defined.


Lemma query_schema_failures_witness :
  (fst (operation sample_config no_env tv4_validate sample_rp list_named
          1%positive abc_world)
     = Rejected (SchemaError
                   {| err_code := 302;
                      err_message := "Missing required property: name";
                      err_dataPath := EmptyString;
                      err_schemaPath := "/required/0" |}) ∧
   sent abc_world
     (snd (operation sample_config no_env tv4_validate sample_rp list_named
             1%positive abc_world)) = []) ∧
  (fst (operation sample_config no_env tv4_validate sample_rp list_bare
          1%positive abc_world) = Rejected TypeError ∧
   sent abc_world
     (snd (operation sample_config no_env tv4_validate sample_rp list_bare
             1%positive abc_world)) = []).
Proof.
  split.
  - apply (proj1 (query_schema_failures sample_config no_env tv4_validate
                    sample_rp list_named _ name_schema 1%positive abc_world
                    ltac:(vm_compute; eexists; reflexivity)
                    eq_refl eq_refl eq_refl)).
    vm_compute. reflexivity.
  - apply (proj2 (query_schema_failures sample_config no_env tv4_validate
                    sample_rp list_bare _ bare_schema 1%positive abc_world
                    ltac:(vm_compute; eexists; reflexivity)
                    eq_refl eq_refl eq_refl)).
    + vm_compute. reflexivity.
    + left. reflexivity.
Defined.

Lemma operation_keeps_arguments_witness :
  store first_call !! 1%positive = store secret_world !! 1%positive ∧
  secret_request ∈ sent secret_world first_call ∧
  store secret_world !! fst secret_request = None ∧
  get "json" (snd secret_request) = VObj [("name", VStr "foo/bar")].
Proof.
  assert (secret_request ∈ sent secret_world first_call) as He
    by (vm_compute; apply list_elem_of_here).
  destruct (operation_keeps_arguments sample_config no_env tv4_validate
              sample_rp read_secret 1%positive secret_world
              ltac:(vm_compute; eexists; reflexivity))
    as (Hframe & _ & Hsent).
  split_and!.
  - apply Hframe. vm_compute. eexists. reflexivity.
  - exact He.
  - apply (Hsent secret_request He).
  - apply (Hsent secret_request He).
Defined.

Lemma query_without_match_witness :
  extendOptions list_items 2%positive secret_options_world
  = (Resolved 2%positive, secret_options_world).
Proof.
  apply (query_without_match list_items ab_decl ab_schema
           [("a", VObj []); ("b", VObj [])] [("name", VStr "foo/bar")]
           "/secret/{{name}}" 2%positive secret_options_world
           ltac:(vm_compute; eexists; reflexivity)
           eq_refl eq_refl eq_refl
           ltac:(vm_compute; reflexivity)).
  - by_evaluation.
  - vm_compute. reflexivity.
Defined.

Lemma client_settings_witness :
  token_headers tokenless_config token_env = [("X-Vault-Token", VStr "s3cr3t")] ∧
  token_headers numeric_token_config token_env = [].
Proof.
  split.
  - apply (proj1 (proj2 (proj2 (proj2 (proj2
             (client_settings tokenless_config token_env)))))
             eq_refl "s3cr3t" eq_refl).
    discriminate.
  - apply (proj2 (proj2 (proj2 (proj2 (proj2
             (client_settings numeric_token_config token_env)))))
             eq_refl eq_refl).
Defined.

Lemma generateFunction_binding_witness :
  generateFunction sample_config no_env tv4_validate sample_rp
    [("read", read_secret)] "read" None
  = operation sample_config no_env tv4_validate sample_rp read_secret.
Proof.
  apply (proj1 (proj2 (generateFunction_binding sample_config no_env
                         tv4_validate sample_rp [("read", read_secret)]
                         "read" None))
           read_secret eq_refl).
  - by_evaluation.
  - apply list_elem_of_here.
Defined.

Lemma query_reaches_uri_witness :
  ∃ e, sent abc_world
         (snd (operation sample_config no_env tv4_validate sample_rp list_items
                 1%positive abc_world)) = [e] ∧
       get "path" (snd e) = VStr "/items?a=1&b=2" ∧
       get "uri" (snd e) = VStr "http://127.0.0.1:8200/v1/items?a=1&b=2".
Proof.
  destruct (query_reaches_uri sample_config no_env tv4_validate sample_rp
              list_items ab_decl ab_schema [("a", VObj []); ("b", VObj [])]
              "/items" 1%positive abc_world
              ltac:(vm_compute; eexists; reflexivity)
              eq_refl eq_refl eq_refl
              ltac:(vm_compute; reflexivity)
              eq_refl eq_refl
              ltac:(vm_compute; reflexivity)
              ltac:(vm_compute; reflexivity))
    as (e & Hs & Hp & Hu).
  exists e. split; [exact Hs|]. split.
  - rewrite Hp. vm_compute. reflexivity.
  - rewrite Hu. vm_compute. reflexivity.
Defined.


Lemma operation_result_witness :
  ∃ e, sent secret_world first_call = [e] ∧
       fst (operation sample_config no_env tv4_validate sample_rp read_secret
              1%positive secret_world)
       = Resolved (VObj [("data", VObj [])]).
Proof.
  destruct (operation_result sample_config no_env tv4_validate sample_rp
              read_secret 1%positive secret_world
              ltac:(vm_compute; eexists; reflexivity))
    as [[Hs _]|(e & Hs & Hr & _)].
  - vm_compute in Hs. discriminate.
  - exists e. split; [exact Hs|].
    rewrite (Hr (Some {| statusCode := 200;
                         body := VObj [("data", VObj [])];
                         request_path := js_string (get "uri" (snd e)) |})
               eq_refl).
    reflexivity.
Defined.

Lemma request_frame_witness :
  store (snd (request sample_config no_env tv4_validate sample_rp 2%positive
                secret_options_world)) !! 1%positive
  = Some [("name", VStr "foo/bar")] ∧
  store patch_sent !! 1%positive = store patch_world !! 1%positive.
Proof.
  split.
  - transitivity (store secret_options_world !! 1%positive);
      [|vm_compute; reflexivity].
    apply (request_frame sample_config no_env tv4_validate sample_rp
             2%positive secret_options_world
             ltac:(by_evaluation) ltac:(vm_compute; eexists; reflexivity)
             1%positive ltac:(vm_compute; eexists; reflexivity)
             ltac:(left; discriminate)).
  - apply (request_frame sample_config no_env tv4_validate sample_rp
             1%positive patch_world
             ltac:(by_evaluation) ltac:(vm_compute; eexists; reflexivity)
             1%positive ltac:(vm_compute; eexists; reflexivity)
             ltac:(right; reflexivity)).
Defined.
